(** * VoxelBotUtils: the bot runner ([voxelbotutils/runner.py])

    A shallow embedding of the start-up and shut-down driver: shard argument
    validation, log level configuration, the two pool starters, the schema
    bootstrap and [run_bot].

    Conventions of the embedding.
    - Python integers are [Z]; [None]-able values are [option].
    - The text that is split and stripped (the schema file and its
      statements) is a sequence of Unicode code points, with [str.isspace]
      on all of them. Names, messages and level strings are Rocq strings;
      [str.upper] is modelled on ASCII strings, where it maps [a-z] to [A-Z],
      and a property that rests on a string being refused says that the
      string is ASCII.
    - Raising is a result constructor; the exception carries its class and
      its message, and [except C] tests the class against the built-in
      hierarchy.
    - Effects on collaborators (pools, client, event loop, logger calls) are
      recorded in a trace; what a collaborator answers is read from a
      [World]. *)

From Stdlib Require Import ZArith List String Ascii Bool Lia Sorted.
Import ListNotations.
Local Open Scope string_scope.
Local Open Scope list_scope.
Local Open Scope Z_scope.

(** ** Python values and exceptions *)

Inductive pyval :=
| PyNone
| PyBool (b : bool)
| PyInt (z : Z)
| PyStr (s : string)
| PyObj (repr : string).

(** Truth value of an object, as tested by [if]. *)
Definition truthy (v : pyval) : bool :=
  match v with
  | PyNone => false
  | PyBool b => b
  | PyInt z => negb (z =? 0)
  | PyStr s => negb (String.eqb s "")
  | PyObj _ => true
  end.

(** The part of the built-in exception hierarchy the runner meets. *)
Inductive exc_class :=
| BaseException | SystemExit | KeyboardInterrupt | Exception
| TypeError | ValueError | LookupError | KeyError
| OSError | ConnectionError | ConnectionRefusedError
| ArithmeticError | OverflowError.

Definition exc_class_eq_dec (a b : exc_class) : {a = b} + {a <> b}.
Proof. decide equality. Defined.

(** Method resolution order: the class followed by its ancestors. *)
Definition mro (c : exc_class) : list exc_class :=
  match c with
  | BaseException => [BaseException]
  | SystemExit => [SystemExit; BaseException]
  | KeyboardInterrupt => [KeyboardInterrupt; BaseException]
  | Exception => [Exception; BaseException]
  | TypeError => [TypeError; Exception; BaseException]
  | ValueError => [ValueError; Exception; BaseException]
  | LookupError => [LookupError; Exception; BaseException]
  | KeyError => [KeyError; LookupError; Exception; BaseException]
  | OSError => [OSError; Exception; BaseException]
  | ConnectionError => [ConnectionError; OSError; Exception; BaseException]
  | ConnectionRefusedError =>
      [ConnectionRefusedError; ConnectionError; OSError; Exception; BaseException]
  | ArithmeticError => [ArithmeticError; Exception; BaseException]
  | OverflowError => [OverflowError; ArithmeticError; Exception; BaseException]
  end.

Definition issubclass (c d : exc_class) : bool :=
  existsb (fun x => if exc_class_eq_dec x d then true else false) (mro c).

(** A raised exception: an instance of a class with its message, or the
    [SystemExit] that the built-in [exit(code)] raises. *)
Inductive exn :=
| Exn (c : exc_class) (msg : string)
| Exit (code : Z).

Definition class_of (e : exn) : exc_class :=
  match e with
  | Exn c _ => c
  | Exit _ => SystemExit
  end.

Definition isinstance (e : exn) (c : exc_class) : bool :=
  issubclass (class_of e) c.

Definition message (e : exn) : string :=
  match e with
  | Exn _ msg => msg
  | Exit _ => ""
  end.

(** ** Text *)

(** A [str] as the sequence of its code points. *)
Definition text := list N.

Definition code (c : ascii) : N := N_of_ascii c.

(** The text of an ASCII literal. *)
Definition txt (s : string) : text := map code (list_ascii_of_string s).

(** ** Observable operations *)

(** Severity constants of the [logging] module. *)
Definition CRITICAL : Z := 50.
Definition FATAL : Z := 50.
Definition ERROR : Z := 40.
Definition WARNING : Z := 30.
Definition WARN : Z := 30.
Definition INFO : Z := 20.
Definition DEBUG : Z := 10.
Definition NOTSET : Z := 0.

Inductive event :=
| LogCall (severity : Z) (msg : string)   (* logger.info / logger.critical *)
| BasicConfig                              (* logging.basicConfig(...) *)
| SetProactorLoop                          (* asyncio.set_event_loop(ProactorEventLoop()) *)
| OpenSchema (path : string)               (* open(path) and read() *)
| DbCreatePool                             (* DatabaseConnection.create_pool *)
| DbAcquire                                (* entering bot.database() *)
| DbExecute (stmt : text)                  (* db(stmt) *)
| DbRelease                                (* leaving bot.database() *)
| RedisCreatePool                          (* RedisConnection.create_pool *)
| LoadAllExtensions                        (* bot.load_all_extensions() *)
| BotStart                                 (* bot.start() *)
| BotLogout                                (* bot.logout() *)
| DbPoolClose                              (* DatabaseConnection.pool.close() *)
| RedisPoolClose                           (* RedisConnection.pool.close() *)
| LoopClose.                               (* loop.close() *)

Definition event_eq_dec (a b : event) : {a = b} + {a <> b}.
Proof.
  decide equality;
    first [apply Z.eq_dec | apply string_dec | apply (list_eq_dec N.eq_dec)].
Defined.

(** A logger of the [logging] registry is identified by its name. *)
Definition Logger := string.

(** Process state: the level of every logger and the operations so far. *)
Record state := mkState {
  levels : Logger -> Z;
  trace : list event
}.

(** ** The effect monad: state passing with exceptions *)

Inductive result (A : Type) :=
| Ok (a : A)
| Raise (e : exn).
Arguments Ok {A} a.
Arguments Raise {A} e.

Definition M (A : Type) := state -> result A * state.

Definition ret {A} (a : A) : M A := fun s => (Ok a, s).

Definition bind {A B} (m : M A) (f : A -> M B) : M B :=
  fun s =>
    match m s with
    | (Ok a, s') => f a s'
    | (Raise e, s') => (Raise e, s')
    end.

Definition raise {A} (e : exn) : M A := fun s => (Raise e, s).

Definition emit (e : event) : M unit :=
  fun s => (Ok tt, mkState (levels s) (trace s ++ [e])).

Notation "x <- m ;; k" := (bind m (fun x => k))
  (at level 61, m at next level, right associativity).
Notation "m ;; k" := (bind m (fun _ => k))
  (at level 61, right associativity).

(** [try: body  except C1: h1  except C2: h2 ...]: the first clause whose
    class the exception is an instance of handles it; otherwise it goes on. *)
Definition try_except {A} (body : M A)
    (handlers : list (exc_class * (exn -> M A))) : M A :=
  fun s =>
    match body s with
    | (Ok a, s') => (Ok a, s')
    | (Raise e, s') =>
        match find (fun h => isinstance e (fst h)) handlers with
        | Some h => snd h e s'
        | None => (Raise e, s')
        end
    end.

(** A collaborator call: record it, then succeed or raise what it answers. *)
Definition call (e : event) (answer : option exn) : M unit :=
  emit e ;;
  match answer with
  | None => ret tt
  | Some x => raise x
  end.

(** The built-in [exit]. *)
Definition exit {A} (code : Z) : M A := raise (Exit code).

(** Run from a state with an empty trace. *)
Definition initial (lv : Logger -> Z) : state := mkState lv [].
Definition outcome {A} (m : M A) (lv : Logger -> Z) : result A := fst (m (initial lv)).
Definition events {A} (m : M A) (lv : Logger -> Z) : list event := trace (snd (m (initial lv))).
Definition final_levels {A} (m : M A) (lv : Logger -> Z) : Logger -> Z :=
  levels (snd (m (initial lv))).

(** ** The module logger *)

Definition logger : Logger := "vflbotutils".

Definition logger_info (msg : string) : M unit := emit (LogCall INFO msg).
Definition logger_critical (msg : string) : M unit := emit (LogCall CRITICAL msg).

(** ** [validate_sharding_information] *)

(** The parsed command line ([argparse.Namespace]). *)
Record Namespace := mkNamespace {
  ns_min : option Z;
  ns_max : option Z;
  ns_shardcount : option Z;
  ns_loglevel : option string;
  ns_loglevel_bot : option string;
  ns_loglevel_discord : option string;
  ns_loglevel_database : option string;
  ns_loglevel_redis : option string
}.

Definition is_none {A} (o : option A) : bool :=
  match o with None => true | Some _ => false end.

Definition int_or_none (o : option Z) : pyval :=
  match o with None => PyNone | Some z => PyInt z end.

(** [a or b]. *)
Definition py_or (a b : pyval) : pyval := if truthy a then a else b.

(** [x + 1] for an [x] that may be [None]. *)
Definition add_one (x : option Z) : M Z :=
  match x with
  | Some z => ret (z + 1)
  | None => raise (Exn TypeError "unsupported operand type(s) for +: 'NoneType' and 'int'")
  end.

(** The integers from [lo] up to [hi], [hi] left out. *)
Definition range_list (lo hi : Z) : list Z :=
  map (fun i => lo + Z.of_nat i) (seq 0 (Z.to_nat (hi - lo))).

(** [sys.maxsize] of a 64-bit interpreter: the longest a list can be. *)
Definition sys_maxsize : Z := 2 ^ 63 - 1.

(** [list(range(lo, hi))]: [range] wants integers; [list] wants the length
    of the range, which must not exceed [sys.maxsize]. (That the memory for
    the list can be had is taken for granted, as for any other value.) *)
Definition py_range (lo : option Z) (hi : Z) : M (list Z) :=
  match lo with
  | Some l =>
      if sys_maxsize <? hi - l then
        raise (Exn OverflowError "Python int too large to convert to C ssize_t")
      else ret (range_list l hi)
  | None => raise (Exn TypeError "'NoneType' object cannot be interpreted as an integer")
  end.

(** Lines 112-115: the defaults written into [args]. *)
Definition default_shards (args : Namespace) : Namespace :=
  if is_none (ns_shardcount args) then
    mkNamespace (Some 0) (Some 0) (Some 1)
      (ns_loglevel args) (ns_loglevel_bot args) (ns_loglevel_discord args)
      (ns_loglevel_database args) (ns_loglevel_redis args)
  else args.

(** Line 117: [args.shardcount is None and (args.min or args.max)]. *)
Definition range_without_count (args : Namespace) : bool :=
  is_none (ns_shardcount args)
  && truthy (py_or (int_or_none (ns_min args)) (int_or_none (ns_max args))).

(** Line 120: [args.shardcount is not None and
    not (args.min is not None and args.max is not None)]. *)
Definition count_without_range (args : Namespace) : bool :=
  negb (is_none (ns_shardcount args))
  && negb (negb (is_none (ns_min args)) && negb (is_none (ns_max args))).

Definition msg_range_without_count : string :=
  "You set a min/max shard handler but no shard count".
Definition msg_count_without_range : string :=
  "You set a shardcount but not min/max shards".

(** The function mutates [args] in place and returns the shard ids; the
    embedding returns the namespace as left by the call together with them. *)
Definition validate_sharding_information (args : Namespace) : M (Namespace * list Z) :=
  let args := default_shards args in
  hi <- add_one (ns_max args) ;;
  shard_ids <- py_range (ns_min args) hi ;;
  (if range_without_count args then
     logger_critical msg_range_without_count ;; exit 1
   else ret tt) ;;
  (if count_without_range args then
     logger_critical msg_count_without_range ;; exit 1
   else ret tt) ;;
  ret (args, shard_ids).

(** ** Text operations *)

Definition is_empty (s : text) : bool :=
  match s with [] => true | _ :: _ => false end.

Definition upper_char (c : ascii) : ascii :=
  let n := nat_of_ascii c in
  if ((97 <=? n) && (n <=? 122))%nat then ascii_of_nat (n - 32) else c.

(** [str.upper], on ASCII strings. *)
Fixpoint upper (s : string) : string :=
  match s with
  | EmptyString => EmptyString
  | String c r => String (upper_char c) (upper r)
  end.

(** Every character is below 128. *)
Fixpoint is_ascii (s : string) : bool :=
  match s with
  | EmptyString => true
  | String c r => (nat_of_ascii c <? 128)%nat && is_ascii r
  end.

(** [str.isspace] of one code point: the code points of Unicode white
    space, U+0009-U+000D, U+001C-U+0020, U+0085, U+00A0, U+1680,
    U+2000-U+200A, U+2028, U+2029, U+202F, U+205F and U+3000. *)
Definition isspace (c : N) : bool :=
  (((9 <=? c) && (c <=? 13)) || ((28 <=? c) && (c <=? 32))
   || (c =? 133) || (c =? 160) || (c =? 5760)
   || ((8192 <=? c) && (c <=? 8202))
   || (c =? 8232) || (c =? 8233) || (c =? 8239) || (c =? 8287) || (c =? 12288))%N.

Fixpoint lstrip (s : text) : text :=
  match s with
  | [] => []
  | c :: r => if isspace c then lstrip r else s
  end.

Fixpoint rstrip (s : text) : text :=
  match s with
  | [] => []
  | c :: r =>
      let r' := rstrip r in
      if isspace c && is_empty r' then [] else c :: r'
  end.

(** [str.strip]. *)
Definition strip (s : text) : text := rstrip (lstrip s).

(** [str.split(sep)] for a one-character separator: the pieces between
    consecutive separators, empty pieces kept. *)
Fixpoint split (sep : N) (s : text) : list text :=
  match s with
  | [] => [[]]
  | c :: r =>
      if N.eqb c sep then [] :: split sep r
      else match split sep r with
           | [] => [[c]]
           | piece :: pieces => (c :: piece) :: pieces
           end
  end.

(** Substring test ([needle in haystack]). *)
Fixpoint contains (needle haystack : string) : bool :=
  String.prefix needle haystack ||
  match haystack with
  | EmptyString => false
  | String _ r => contains needle r
  end.

(** ** Dictionaries *)

Definition dict (V : Type) := list (string * V).

Fixpoint dict_get {V} (d : dict V) (k : string) : option V :=
  match d with
  | [] => None
  | (k', v) :: r => if String.eqb k k' then Some v else dict_get r k
  end.

(** [d[k]]. *)
Definition getitem {V} (d : dict V) (k : string) : M V :=
  match dict_get d k with
  | Some v => ret v
  | None => raise (Exn KeyError k)
  end.

(** ** The [logging] module as the runner uses it *)

Definition BASIC_FORMAT : string := "%(levelname)s:%(name)s:%(message)s".

Definition STYLES_repr : string :=
  "{'%': (<class 'logging.PercentStyle'>, '%(levelname)s:%(name)s:%(message)s'), '{': (<class 'logging.StrFormatStyle'>, '{levelname}:{name}:{message}'), '$': (<class 'logging.StringTemplateStyle'>, '${levelname}:${name}:${message}')}".

(** The attributes of the [logging] module whose name has no lower-case
    letter. The runner only asks for upper-cased names, so no other attribute
    of the module can be found by it. *)
Definition logging_namespace : dict pyval :=
  [ ("CRITICAL", PyInt CRITICAL); ("FATAL", PyInt FATAL); ("ERROR", PyInt ERROR);
    ("WARNING", PyInt WARNING); ("WARN", PyInt WARN); ("INFO", PyInt INFO);
    ("DEBUG", PyInt DEBUG); ("NOTSET", PyInt NOTSET);
    ("BASIC_FORMAT", PyStr BASIC_FORMAT); ("_STYLES", PyObj STYLES_repr) ].

(** [getattr(logging, name, None)]; [None] of the result is Python's [None]. *)
Definition getattr_logging (name : string) : option pyval :=
  dict_get logging_namespace name.

(** [logging._nameToLevel]. *)
Definition nameToLevel : dict Z :=
  [ ("CRITICAL", CRITICAL); ("FATAL", FATAL); ("ERROR", ERROR); ("WARN", WARNING);
    ("WARNING", WARNING); ("INFO", INFO); ("DEBUG", DEBUG); ("NOTSET", NOTSET) ].

(** [logging._checkLevel]: an integer is taken as it is, a string must be a
    level name, anything else is a type error. *)
Definition checkLevel (level : pyval) : M Z :=
  match level with
  | PyInt z => ret z
  | PyBool b => ret (if b then 1 else 0)
  | PyStr s =>
      match dict_get nameToLevel s with
      | Some z => ret z
      | None => raise (Exn ValueError ("Unknown level: '" ++ s ++ "'"))
      end
  | PyNone => raise (Exn TypeError "Level not an integer or a valid string: None")
  | PyObj r => raise (Exn TypeError ("Level not an integer or a valid string: " ++ r))
  end.

Definition store_level (l : Logger) (z : Z) : M unit :=
  fun s => (Ok tt, mkState (fun l' => if String.eqb l' l then z else levels s l') (trace s)).

(** [Logger.setLevel]: the level is checked, then stored. *)
Definition setLevel (l : Logger) (level : pyval) : M unit :=
  z <- checkLevel level ;;
  store_level l z.

(** [logging.getLogger(name)]. *)
Definition getLogger (name : string) : Logger := name.

(** ** [set_log_level] *)

(** The first argument is a logger or the name of one. *)
Inductive logger_ref :=
| LoggerObject (l : Logger)
| LoggerName (name : string).

Definition msg_level_not_found (loglevel : string) : string :=
  "The log level " ++ upper loglevel ++ " wasn't found in the logging module".

Definition set_log_level (logger_to_change : logger_ref) (loglevel : option string) : M unit :=
  match loglevel with
  | None => ret tt
  | Some loglevel =>
      let logger_to_change :=
        match logger_to_change with
        | LoggerName name => getLogger name
        | LoggerObject l => l
        end in
      match getattr_logging (upper loglevel) with
      | None => raise (Exn ValueError (msg_level_not_found loglevel))
      | Some level => setLevel logger_to_change level
      end
  end.

(** ** The client *)

(** What the runner touches of [CustomBot]: the configuration and the three
    loggers. *)
Record Bot := mkBot {
  config : dict (dict pyval);
  bot_logger : Logger;
  database_logger : Logger;
  redis_logger : Logger
}.

(** ** [set_default_log_levels] *)

(** [bot.logger = logger] changes the client; the embedding returns it. *)
Definition set_default_log_levels (bot : Bot) (args : Namespace) : M Bot :=
  emit BasicConfig ;;
  let bot := mkBot (config bot) logger (database_logger bot) (redis_logger bot) in
  set_log_level (LoggerObject logger) (ns_loglevel args) ;;
  set_log_level (LoggerObject (database_logger bot)) (ns_loglevel args) ;;
  set_log_level (LoggerObject (redis_logger bot)) (ns_loglevel args) ;;
  set_log_level (LoggerName "discord") (ns_loglevel args) ;;
  set_log_level (LoggerObject logger) (ns_loglevel_bot args) ;;
  set_log_level (LoggerObject (database_logger bot)) (ns_loglevel_database args) ;;
  set_log_level (LoggerObject (redis_logger bot)) (ns_loglevel_redis args) ;;
  set_log_level (LoggerName "discord") (ns_loglevel_discord args) ;;
  ret bot.

(** ** The collaborators *)

(** What each collaborator answers when called: [None] is a normal return,
    [Some e] raises [e]. *)
Record World := mkWorld {
  win32 : bool;                          (* sys.platform == 'win32' *)
  schema_file : text + exn;              (* reading ./config/database.pgsql *)
  db_create_pool : option exn;
  db_acquire : option exn;
  db_execute : text -> option exn;
  redis_create_pool : option exn;
  load_all_extensions : option exn;
  bot_start : option exn;
  bot_logout : option exn;
  db_pool_close : option exn;
  redis_pool_close : option exn
}.

Fixpoint for_each {A} (l : list A) (body : A -> M unit) : M unit :=
  match l with
  | [] => ret tt
  | x :: r => body x ;; for_each r body
  end.

(** [bot.config[resource]['enabled']] as a condition. *)
Definition enabled (bot : Bot) (resource : string) : M bool :=
  section <- getitem (config bot) resource ;;
  flag <- getitem section "enabled" ;;
  ret (truthy flag).

Definition schema_path : string := "./config/database.pgsql".

Section Runner.

Variable w : World.

(** [with open(path) as a: data = a.read()]. *)
Definition read_schema : M text :=
  emit (OpenSchema schema_path) ;;
  match schema_file w with
  | inl data => ret data
  | inr e => raise e
  end.

(** [async with bot.database() as db: body]: the connection is given back
    however the body ends. *)
Definition with_database {A} (body : M A) : M A :=
  call DbAcquire (db_acquire w) ;;
  fun s =>
    let (r, s') := body s in
    (r, snd (emit DbRelease s')).

(** One turn of the loop of [create_initial_database]. *)
Definition run_statement (i : text) : M unit :=
  if negb (is_empty i) && negb (is_empty (strip i)) then
    call (DbExecute (strip i)) (db_execute w (strip i))
  else ret tt.

(** The [return False] of the handler is the [None] of the first step. *)
Definition create_initial_database (bot : Bot) : M bool :=
  read <- try_except (data <- read_schema ;; ret (Some data))
            [(Exception, fun _ => ret None)] ;;
  match read with
  | None => ret false
  | Some data =>
      let create_table_statemenets := split (code ";") data in
      with_database (for_each create_table_statemenets run_statement) ;;
      ret true
  end.

Definition msg_db_key_error : string :=
  "KeyError creating database pool - is there a 'database' object in the config?".
Definition msg_db_refused : string :=
  "ConnectionRefusedError creating database pool - did you set the right information in the config, and is the database running?".
Definition msg_db_error : string := "Error creating database pool".

Definition start_database_pool (bot : Bot) : M unit :=
  on <- enabled bot "database" ;;
  if on then
    logger_info "Creating database pool" ;;
    try_except
      (settings <- getitem (config bot) "database" ;;
       call DbCreatePool (db_create_pool w))
      [(KeyError, fun _ => raise (Exn Exception msg_db_key_error));
       (ConnectionRefusedError, fun _ => raise (Exn Exception msg_db_refused));
       (Exception, fun _ => raise (Exn Exception msg_db_error))] ;;
    logger_info "Created database pool successfully" ;;
    logger_info "Creating initial database tables" ;;
    create_initial_database bot ;;
    ret tt
  else
    logger_info "Database connection has been disabled".

Definition msg_redis_key_error : string :=
  "KeyError creating redis pool - is there a 'redis' object in the config?".
Definition msg_redis_refused : string :=
  "ConnectionRefusedError creating redis pool - did you set the right information in the config, and is the database running?".
Definition msg_redis_error : string := "Error creating redis pool".

Definition start_redis_pool (bot : Bot) : M unit :=
  on <- enabled bot "redis" ;;
  if on then
    logger_info "Creating redis pool" ;;
    try_except
      (settings <- getitem (config bot) "redis" ;;
       call RedisCreatePool (redis_create_pool w))
      [(KeyError, fun _ => raise (Exn KeyError msg_redis_key_error));
       (ConnectionRefusedError, fun _ => raise (Exn ConnectionRefusedError msg_redis_refused));
       (Exception, fun _ => raise (Exn Exception msg_redis_error))] ;;
    logger_info "Created redis pool successfully"
  else
    logger_info "Redis connection has been disabled".

Definition run_bot (bot : Bot) : M unit :=
  (if win32 w then emit SetProactorLoop else ret tt) ;;
  start_database_pool bot ;;
  start_redis_pool bot ;;
  logger_info "Loading extensions... " ;;
  call LoadAllExtensions (load_all_extensions w) ;;
  try_except
    (logger_info "Running bot" ;;
     call BotStart (bot_start w))
    [(KeyboardInterrupt, fun _ =>
        logger_info "Logging out bot" ;;
        call BotLogout (bot_logout w))] ;;
  db_on <- enabled bot "database" ;;
  (if db_on then
     logger_info "Closing database pool" ;;
     call DbPoolClose (db_pool_close w)
   else ret tt) ;;
  redis_on <- enabled bot "redis" ;;
  (if redis_on then
     logger_info "Closing redis pool" ;;
     call RedisPoolClose (redis_pool_close w)
   else ret tt) ;;
  logger_info "Closing asyncio loop" ;;
  call LoopClose None.

End Runner.

(** ** Levels by name *)

Definition resolve (r : logger_ref) : Logger :=
  match r with
  | LoggerName name => getLogger name
  | LoggerObject l => l
  end.

(** The level a name stands for: the integer found under its upper-cased
    form in the [logging] module. *)
Definition level_named (name : string) : option Z :=
  match getattr_logging (upper name) with
  | Some (PyInt z) => Some z
  | _ => None
  end.

(** Two passes over one channel: the override if there is one, else the
    global level. *)
Definition layered (G : Z) (O : option string) : option Z :=
  match O with
  | None => Some G
  | Some o => level_named o
  end.

(** ** Classes of operations *)

Definition is_log (e : event) : bool :=
  match e with LogCall _ _ => true | _ => false end.

(** The operations of the schema bootstrap. *)
Definition is_schema_op (e : event) : bool :=
  match e with
  | OpenSchema _ | DbAcquire | DbExecute _ | DbRelease => true
  | _ => false
  end.

(** What [start_database_pool] may do: log, create the pool, bootstrap. *)
Definition is_db_start (e : event) : bool :=
  match e with
  | LogCall _ _ | DbCreatePool => true
  | _ => is_schema_op e
  end.

(** What [start_redis_pool] may do. *)
Definition is_redis_start (e : event) : bool :=
  match e with
  | LogCall _ _ | RedisCreatePool => true
  | _ => false
  end.

(** [m] only appends to the trace, and only operations accepted by [P]. *)
Definition emits_only (P : event -> bool) {A} (m : M A) : Prop :=
  forall s, exists t, trace (snd (m s)) = trace s ++ t /\ forallb P t = true.

(** ** Stages of a run *)

(** A stage assignment gives some operations a stage number; [phases] reads
    the stage numbers off a trace, in order. *)
Definition phases (phase : event -> option nat) (t : list event) : list nat :=
  flat_map (fun e => match phase e with Some p => [p] | None => [] end) t.

(** The stages met are within [lo..hi] and never go backwards. *)
Definition ordered (phase : event -> option nat) (lo hi : nat) (t : list event) : Prop :=
  Forall (fun p => lo <= p <= hi)%nat (phases phase t)
  /\ StronglySorted le (phases phase t).

Definition staged (phase : event -> option nat) (lo hi : nat) {A} (m : M A) : Prop :=
  forall s, exists t, trace (snd (m s)) = trace s ++ t /\ ordered phase lo hi t.

(** Start-up: 1 the database pool and its schema, 2 the redis pool,
    3 the extensions, 4 the client's run. *)
Definition startup_phase (e : event) : option nat :=
  match e with
  | DbCreatePool | OpenSchema _ | DbAcquire | DbExecute _ | DbRelease => Some 1%nat
  | RedisCreatePool => Some 2%nat
  | LoadAllExtensions => Some 3%nat
  | BotStart => Some 4%nat
  | _ => None
  end.

(** Operations without a start-up stage. *)
Definition unstaged (e : event) : bool := is_none (startup_phase e).

(** What the run of the client may do, interruption included. *)
Definition is_run_op (e : event) : bool :=
  match e with
  | LogCall _ _ | BotStart | BotLogout => true
  | _ => false
  end.

(** The value of [bot.config[resource]['enabled']] as a truth value, when
    both keys are there. *)
Definition enabled_flag (bot : Bot) (resource : string) : option bool :=
  match dict_get (config bot) resource with
  | Some section =>
      match dict_get section "enabled" with
      | Some flag => Some (truthy flag)
      | None => None
      end
  | None => None
  end.

(** Every operation on the database pool, start-up and shut-down. *)
Definition is_db_op (e : event) : bool :=
  match e with
  | DbCreatePool | DbPoolClose => true
  | _ => is_schema_op e
  end.

(** Every operation on the redis pool. *)
Definition is_redis_op (e : event) : bool :=
  match e with
  | RedisCreatePool | RedisPoolClose => true
  | _ => false
  end.

(** ** The statements of a schema text *)

(** A fragment that is kept: not empty and not made of white space only. *)
Definition is_statement (i : text) : bool :=
  negb (is_empty i) && negb (is_empty (strip i)).

(** The fragments between [;], the blank ones dropped, the others stripped,
    in the order of the text. *)
Definition statements (data : text) : list text :=
  map strip (filter is_statement (split (code ";") data)).

Fixpoint all_space (s : text) : bool :=
  match s with
  | [] => true
  | c :: r => isspace c && all_space r
  end.

(** ** The two halves of [run_bot] *)

(** Lines 222-239: up to the loading of the extensions. *)
Definition startup (w : World) (bot : Bot) : M unit :=
  (if win32 w then emit SetProactorLoop else ret tt) ;;
  start_database_pool w bot ;;
  start_redis_pool w bot ;;
  logger_info "Loading extensions... " ;;
  call LoadAllExtensions (load_all_extensions w).

(** Lines 242-258: the run of the client and the clean-up. *)
Definition run_and_close (w : World) (bot : Bot) : M unit :=
  try_except
    (logger_info "Running bot" ;;
     call BotStart (bot_start w))
    [(KeyboardInterrupt, fun _ =>
        logger_info "Logging out bot" ;;
        call BotLogout (bot_logout w))] ;;
  db_on <- enabled bot "database" ;;
  (if db_on then
     logger_info "Closing database pool" ;;
     call DbPoolClose (db_pool_close w)
   else ret tt) ;;
  redis_on <- enabled bot "redis" ;;
  (if redis_on then
     logger_info "Closing redis pool" ;;
     call RedisPoolClose (redis_pool_close w)
   else ret tt) ;;
  logger_info "Closing asyncio loop" ;;
  call LoopClose None.

(** The client's run, its logout and the two pool closes. *)
Definition is_lifecycle_op (e : event) : bool :=
  match e with
  | BotStart | BotLogout | DbPoolClose | RedisPoolClose => true
  | _ => false
  end.

(** ** Sample inputs *)

(** Collaborators that all answer normally, around a given schema file. *)
Definition quiet_world (schema : text + exn) : World :=
  mkWorld false schema None None (fun _ => None) None None None None None None.

(** The same, with the client's run ended by an interruption. *)
Definition interrupted_world (schema : text + exn) : World :=
  mkWorld false schema None None (fun _ => None) None None
    (Some (Exn KeyboardInterrupt "")) None None None.

(** The same, with a database that refuses the connection. *)
Definition refusing_world : World :=
  mkWorld false (inr (Exn OSError "No such file or directory"))
    (Some (Exn ConnectionRefusedError "Connection refused")) None (fun _ => None)
    (Some (Exn ConnectionRefusedError "Connection refused")) None None None None None.

Definition sample_config (database redis : bool) : dict (dict pyval) :=
  [ ("database", [("enabled", PyBool database); ("host", PyStr "127.0.0.1")]);
    ("redis", [("enabled", PyBool redis); ("host", PyStr "127.0.0.1")]) ].

Definition sample_bot (database redis : bool) : Bot :=
  mkBot (sample_config database redis) "bot" "database" "redis".

Definition sample_args : Namespace :=
  mkNamespace None None None (Some "info") (Some "debug") None None (Some "warning").

Definition sample_schema : text := txt "CREATE TABLE a(x int); CREATE TABLE b(y int);".

(** ** Further vocabulary *)

(** [x in s] for a character. *)
Fixpoint has_char (x : N) (s : text) : bool :=
  match s with
  | [] => false
  | c :: r => N.eqb c x || has_char x r
  end.

(** The text does not begin with white space. *)
Definition head_nonspace (s : text) : bool :=
  match s with
  | [] => true
  | c :: _ => negb (isspace c)
  end.

(** Collaborators that answer normally, except that the statement [bad]
    raises [e]. *)
Definition failing_world (schema : text + exn) (bad : text) (e : exn) : World :=
  mkWorld false schema None None
    (fun st => if list_eq_dec N.eq_dec st bad then Some e else None)
    None None None None None None.

(** Everything [run_bot] does after the extensions are loaded. *)
Definition is_second_half_op (e : event) : bool :=
  match e with
  | LoopClose => true
  | _ => is_lifecycle_op e
  end.

(** Every operation but [x]. *)
Definition other_than (x e : event) : bool :=
  if event_eq_dec e x then false else true.

(** [m] only appends to the trace, and [x] at most once. *)
Definition at_most_once (x : event) {A} (m : M A) : Prop :=
  forall s, exists t,
    trace (snd (m s)) = trace s ++ t /\ (count_occ event_eq_dec t x <= 1)%nat.

(** The logout, the two pool closes and the closing of the loop. *)
Definition is_cleanup_op (e : event) : bool :=
  match e with
  | BotLogout | DbPoolClose | RedisPoolClose | LoopClose => true
  | _ => false
  end.

(** A database pool is created, then the redis server refuses. *)
Definition redis_refusing_world : World :=
  mkWorld false (inl sample_schema) None None (fun _ => None)
    (Some (Exn ConnectionRefusedError "Connection refused")) None None None None None.

(** All goes well until the client's run raises [e]. *)
Definition crashing_world (e : exn) : World :=
  mkWorld false (inl sample_schema) None None (fun _ => None) None None
    (Some e) None None None.

(** ** [get_default_program_arguments] *)

(** The [type=] of an argument: [int], or the default (the text as given). *)
Inductive arg_type := TypeStr | TypeInt.

(** One [add_argument] call. *)
Record Argument := mkArgument {
  arg_name : string;
  arg_type_of : arg_type;
  arg_default : pyval;
  arg_help : string
}.

(** The parser, as the list of its arguments in the order they are added. *)
Definition get_default_program_arguments (include_config_file : bool) : list Argument :=
  (if include_config_file then
     [mkArgument "config_file" TypeStr PyNone "The configuration for the bot"]
   else [])
  ++ [ mkArgument "--min" TypeInt PyNone
         "The minimum shard ID that this instance will run with (inclusive)";
       mkArgument "--max" TypeInt PyNone
         "The maximum shard ID that this instance will run with (inclusive)";
       mkArgument "--shardcount" TypeInt PyNone
         "The amount of shards that the bot should be using";
       mkArgument "--loglevel" TypeStr (PyStr "INFO")
         "Global logging level - probably most useful is INFO and DEBUG";
       mkArgument "--loglevel-bot" TypeStr PyNone
         "Logging level for the bot - probably most useful is INFO and DEBUG";
       mkArgument "--loglevel-discord" TypeStr PyNone
         "Logging level for discord - probably most useful is INFO and DEBUG";
       mkArgument "--loglevel-database" TypeStr PyNone
         "Logging level for database - probably most useful is INFO and DEBUG";
       mkArgument "--loglevel-redis" TypeStr PyNone
         "Logging level for redis - probably most useful is INFO and DEBUG" ].

(** An argument whose name starts with [--] is an option; the others are
    positional. *)
Definition is_option (a : Argument) : bool := String.prefix "--" (arg_name a).

Fixpoint replace_char (old new : ascii) (s : string) : string :=
  match s with
  | EmptyString => EmptyString
  | String c r => String (if Ascii.eqb c old then new else c) (replace_char old new r)
  end.

(** The attribute of the namespace an argument is stored under: for an
    option its name without the leading [--] and with [-] turned into [_]. *)
Definition dest (a : Argument) : string :=
  if is_option a then
    replace_char "-" "_" (String.substring 2 (String.length (arg_name a) - 2) (arg_name a))
  else arg_name a.

(** The namespace of a command line that gives the positional argument
    (if there is one) and no option: every option has its default. *)
Definition parse_without_options (parser : list Argument) (config_file : string)
    : dict pyval :=
  map (fun a => (dest a, if is_option a then arg_default a else PyStr config_file)) parser.

Definition as_int (v : pyval) : option (option Z) :=
  match v with
  | PyNone => Some None
  | PyInt z => Some (Some z)
  | _ => None
  end.

Definition as_str (v : pyval) : option (option string) :=
  match v with
  | PyNone => Some None
  | PyStr t => Some (Some t)
  | _ => None
  end.

(** The eight attributes the runner reads, when they are all there. *)
Definition namespace_of (d : dict pyval) : option Namespace :=
  match dict_get d "min", dict_get d "max", dict_get d "shardcount",
        dict_get d "loglevel", dict_get d "loglevel_bot", dict_get d "loglevel_discord",
        dict_get d "loglevel_database", dict_get d "loglevel_redis" with
  | Some a, Some b, Some c, Some l, Some lb, Some ld, Some ldb, Some lr =>
      match as_int a, as_int b, as_int c,
            as_str l, as_str lb, as_str ld, as_str ldb, as_str lr with
      | Some a, Some b, Some c, Some l, Some lb, Some ld, Some ldb, Some lr =>
          Some (mkNamespace a b c l lb ld ldb lr)
      | _, _, _, _, _, _, _, _ => None
      end
  | _, _, _, _, _, _, _, _ => None
  end.

(** The namespace with another shard count. *)
Definition with_shardcount (args : Namespace) (c : Z) : Namespace :=
  mkNamespace (ns_min args) (ns_max args) (Some c)
    (ns_loglevel args) (ns_loglevel_bot args) (ns_loglevel_discord args)
    (ns_loglevel_database args) (ns_loglevel_redis args).

(** The two pool closes. *)
Definition is_pool_close (e : event) : bool :=
  match e with
  | DbPoolClose | RedisPoolClose => true
  | _ => false
  end.

(** [m] does not look at the state: from every state it gives the same
    result, appends the same operations to the trace and leaves the log
    levels alone. *)
Definition logless {A} (m : M A) : Prop :=
  exists r t, forall s, m s = (r, mkState (levels s) (trace s ++ t)).

(** * Properties *)

(** ** Text operations on examples *)

Example upper_info : upper "info" = "INFO". Proof. reflexivity. Qed.
Example split_demo :
  split (code ";") (txt "CREATE TABLE a(x int); CREATE TABLE b(y int);")
  = [txt "CREATE TABLE a(x int)"; txt " CREATE TABLE b(y int)"; txt ""].
Proof. reflexivity. Qed.
Example strip_demo : strip (txt "  a b  ") = txt "a b". Proof. reflexivity. Qed.
Example statements_no_break_space :
  statements (160%N :: txt ";" ++ 8195%N :: txt " a ;" ++ [12288%N]) = [txt "a"].
Proof. reflexivity. Qed.
Example strip_no_break_space :
  strip (160%N :: txt " a" ++ [8195%N; 133%N]) = txt "a".
Proof. reflexivity. Qed.

(** ** Shard validation *)

Lemma range_list_single (z : Z) : range_list z (z + 1) = [z].
Proof.
  unfold range_list. replace (z + 1 - z) with 1 by lia.
  simpl. f_equal. lia.
Qed.

(** Once the defaults are written, a namespace without a shard count does
    not exist any more. *)
Lemma default_shards_count (args : Namespace) :
  is_none (ns_shardcount (default_shards args)) = false.
Proof.
  unfold default_shards. destruct (ns_shardcount args) eqn:E; simpl; [rewrite E|]; reflexivity.
Qed.

(** Whoever gets past line 116 has both bounds. *)
Lemma validate_sharding_information_cases (args : Namespace) (s : state) :
  let args' := default_shards args in
  match ns_min args', ns_max args' with
  | Some lo, Some hi =>
      validate_sharding_information args s
      = (if sys_maxsize <? hi + 1 - lo then
           Raise (Exn OverflowError "Python int too large to convert to C ssize_t")
         else Ok (args', range_list lo (hi + 1)), s)
  | None, Some _ =>
      validate_sharding_information args s
      = (Raise (Exn TypeError "'NoneType' object cannot be interpreted as an integer"), s)
  | _, None =>
      validate_sharding_information args s
      = (Raise (Exn TypeError "unsupported operand type(s) for +: 'NoneType' and 'int'"), s)
  end.
Proof.
  intros args'. unfold validate_sharding_information. fold args'.
  pose proof (default_shards_count args) as Hc. fold args' in Hc.
  unfold range_without_count, count_without_range. rewrite Hc.
  destruct (ns_min args') as [lo|], (ns_max args') as [hi|]; try reflexivity.
  unfold bind, add_one, py_range, ret. destruct (sys_maxsize <? hi + 1 - lo); reflexivity.
Qed.

(** The call never logs and never leaves through [exit]. *)
Lemma validate_sharding_information_silent (args : Namespace) (s : state) :
  snd (validate_sharding_information args s) = s
  /\ forall code, fst (validate_sharding_information args s) <> Raise (Exit code).
Proof.
  pose proof (validate_sharding_information_cases args s) as H. simpl in H.
  destruct (ns_min (default_shards args)) as [lo|], (ns_max (default_shards args)) as [hi|];
    rewrite H; try destruct (sys_maxsize <? hi + 1 - lo);
    simpl; split; try reflexivity; intros code; discriminate.
Qed.

(** X4. A shard count with a missing bound, or with both missing, ends in
    a [TypeError] raised by the computation of the range; nothing is logged
    and no exit is taken. *)
Lemma validate_sharding_information_partial_range (args : Namespace) (s : state) :
  ns_shardcount args <> None ->
  ns_min args = None \/ ns_max args = None ->
  exists msg, validate_sharding_information args s = (Raise (Exn TypeError msg), s).
Proof.
  intros Hc Hm.
  pose proof (validate_sharding_information_cases args s) as H. simpl in H.
  unfold default_shards in H.
  destruct (ns_shardcount args); [simpl in H | congruence].
  destruct (ns_min args), (ns_max args), Hm; try discriminate; eexists; exact H.
Qed.

(** C6. When [shardcount] is absent the call returns the shard list [[0]] and
    leaves the namespace with a count of 1 and both bounds 0, whatever the
    bounds were; nothing is logged and no logger changes. *)
Theorem validate_sharding_information_default (args : Namespace) (s : state) :
  ns_shardcount args = None ->
  validate_sharding_information args s
  = (Ok (mkNamespace (Some 0) (Some 0) (Some 1)
           (ns_loglevel args) (ns_loglevel_bot args) (ns_loglevel_discord args)
           (ns_loglevel_database args) (ns_loglevel_redis args),
         [0]), s).
Proof.
  intros Hc.
  pose proof (validate_sharding_information_cases args s) as H. simpl in H.
  unfold default_shards in H. rewrite Hc in H. simpl in H.
  rewrite H. reflexivity.
Qed.

Lemma validate_sharding_information_default_witness :
  validate_sharding_information
    (mkNamespace (Some 3) (Some 7) None (Some "INFO") None None None None)
    (initial (fun _ => NOTSET))
  = (Ok (mkNamespace (Some 0) (Some 0) (Some 1) (Some "INFO") None None None None, [0]),
     initial (fun _ => NOTSET)).
Proof.
  apply (validate_sharding_information_default
           (mkNamespace (Some 3) (Some 7) None (Some "INFO") None None None None)).
  reflexivity.
Defined.

(** C10. The guard of line 117 is false for every namespace at the point
    where it is tested, so its message is never logged, by any call. *)
Theorem range_without_count_unreachable (args : Namespace) (lv : Logger -> Z) :
  range_without_count (default_shards args) = false
  /\ ~ In (LogCall CRITICAL msg_range_without_count)
          (events (validate_sharding_information args) lv).
Proof.
  split.
  - unfold range_without_count. rewrite default_shards_count. reflexivity.
  - unfold events.
    destruct (validate_sharding_information_silent args (initial lv)) as [Hs _].
    rewrite Hs. simpl. tauto.
Qed.

(** C1. With a shard count of 2 and one bound missing the call does not log
    and does not exit: it raises [TypeError] while building the range. *)
Theorem validate_sharding_information_count_one_bound :
  let only_min := mkNamespace (Some 0) None (Some 2) (Some "INFO") None None None None in
  let only_max := mkNamespace None (Some 3) (Some 2) (Some "INFO") None None None None in
  let lv := fun _ : Logger => NOTSET in
  outcome (validate_sharding_information only_min) lv
  = Raise (Exn TypeError "unsupported operand type(s) for +: 'NoneType' and 'int'")
  /\ events (validate_sharding_information only_min) lv = []
  /\ outcome (validate_sharding_information only_max) lv
     = Raise (Exn TypeError "'NoneType' object cannot be interpreted as an integer")
  /\ events (validate_sharding_information only_max) lv = [].
Proof. repeat split. Qed.

(** ** Log levels *)

Lemma set_log_level_none (r : logger_ref) (s : state) :
  set_log_level r None s = (Ok tt, s).
Proof. reflexivity. Qed.

Lemma set_log_level_named (r : logger_ref) (name : string) (z : Z) (s : state) :
  level_named name = Some z ->
  set_log_level r (Some name) s = store_level (resolve r) z s.
Proof.
  unfold level_named, set_log_level. intros H.
  destruct (getattr_logging (upper name)) as [[| | z' | |]|]; try discriminate.
  injection H as ->. destruct r; reflexivity.
Qed.

Lemma set_log_level_layered (r : logger_ref) (G L : Z) (O : option string) (s : state) :
  layered G O = Some L ->
  levels s (resolve r) = G ->
  exists s', set_log_level r O s = (Ok tt, s')
    /\ trace s' = trace s
    /\ levels s' (resolve r) = L
    /\ forall l, l <> resolve r -> levels s' l = levels s l.
Proof.
  intros HL HG. destruct O as [o|]; simpl in HL.
  - rewrite (set_log_level_named r o L s HL). eexists. split; [reflexivity|].
    simpl. rewrite String.eqb_refl. repeat split.
    intros l Hl. apply String.eqb_neq in Hl. rewrite Hl. reflexivity.
  - injection HL as <-. exists s. repeat split. exact HG.
Qed.

Lemma set_log_level_not_found (r : logger_ref) (loglevel : string) (s : state) :
  getattr_logging (upper loglevel) = None ->
  set_log_level r (Some loglevel) s
  = (Raise (Exn ValueError (msg_level_not_found loglevel)), s).
Proof. intros H. unfold set_log_level. rewrite H. reflexivity. Qed.

(** Whatever [set_log_level] raises, it raises before storing anything. *)
Lemma set_log_level_raise_unchanged (r : logger_ref) (loglevel : option string)
    (s s' : state) (e : exn) :
  set_log_level r loglevel s = (Raise e, s') -> s' = s.
Proof.
  unfold set_log_level, setLevel, checkLevel, bind, store_level, raise, ret.
  destruct loglevel as [l|]; [|intros H; congruence].
  destruct (getattr_logging (upper l)) as [[| b | z | t | o]|];
    try (intros H; congruence).
  destruct (dict_get nameToLevel t); intros H; congruence.
Qed.

Lemma prefix_app (a b : string) : String.prefix a (a ++ b)%string = true.
Proof.
  induction a as [|c a IH]; simpl.
  - destruct b; reflexivity.
  - destruct (ascii_dec c c); [exact IH | congruence].
Qed.

Lemma contains_prefix (x h : string) :
  String.prefix x h = true -> contains x h = true.
Proof. destruct h; simpl; intros ->; reflexivity. Qed.

Lemma contains_app (pre x post : string) :
  contains x (pre ++ x ++ post)%string = true.
Proof.
  induction pre as [|c pre IH].
  - simpl. apply contains_prefix, prefix_app.
  - simpl. rewrite IH. apply orb_true_r.
Qed.

(** The runner's own error names the level in upper case. *)
Lemma msg_level_not_found_names (loglevel : string) :
  contains (upper loglevel) (msg_level_not_found loglevel) = true.
Proof. unfold msg_level_not_found. apply contains_app. Qed.

(** C9. Two level strings that are no level name of the [logging] module:
    ["basic_format"] is found in the module as a format string and is refused
    by [Logger.setLevel] with a message that does not name it; ["_styles"]
    is found as a dictionary and is refused with a [TypeError]. The level of
    the logger stays as it was in both. *)
Theorem set_log_level_module_attribute :
  let s := initial (fun _ => WARNING) in
  dict_get nameToLevel (upper "basic_format") = None
  /\ dict_get nameToLevel (upper "_styles") = None
  /\ getattr_logging (upper "basic_format") = Some (PyStr BASIC_FORMAT)
  /\ set_log_level (LoggerObject logger) (Some "basic_format") s
     = (Raise (Exn ValueError "Unknown level: '%(levelname)s:%(name)s:%(message)s'"), s)
  /\ contains "BASIC_FORMAT"
       "Unknown level: '%(levelname)s:%(name)s:%(message)s'" = false
  /\ contains "basic_format"
       "Unknown level: '%(levelname)s:%(name)s:%(message)s'" = false
  /\ set_log_level (LoggerObject logger) (Some "_styles") s
     = (Raise (Exn TypeError
                 ("Level not an integer or a valid string: " ++ STYLES_repr)%string), s).
Proof. repeat split. Qed.

Local Arguments String.eqb : simpl never.

Ltac eqb_cases :=
  unfold resolve, getLogger; simpl; rewrite ?String.eqb_refl;
  repeat match goal with
  | |- context [String.eqb ?a ?b] =>
      destruct (String.eqb_spec a b); try congruence
  end;
  try reflexivity.

(** C7. With a global level [g] naming [G] and, per channel, an override
    that is absent or names a level, [set_default_log_levels] returns and
    leaves each of the four channels at its override when there is one and
    at [G] otherwise; loggers other than the four keep their level; and a
    call of [set_log_level] with [None] changes nothing. The four loggers are
    taken to be four different loggers. *)
Theorem set_default_log_levels_layering
    (bot : Bot) (args : Namespace) (lv : Logger -> Z) (g : string)
    (G Lbot Ldatabase Lredis Ldiscord : Z) :
  NoDup [logger; database_logger bot; redis_logger bot; getLogger "discord"] ->
  ns_loglevel args = Some g ->
  level_named g = Some G ->
  layered G (ns_loglevel_bot args) = Some Lbot ->
  layered G (ns_loglevel_database args) = Some Ldatabase ->
  layered G (ns_loglevel_redis args) = Some Lredis ->
  layered G (ns_loglevel_discord args) = Some Ldiscord ->
  let run := set_default_log_levels bot args in
  outcome run lv = Ok (mkBot (config bot) logger (database_logger bot) (redis_logger bot))
  /\ final_levels run lv logger = Lbot
  /\ final_levels run lv (database_logger bot) = Ldatabase
  /\ final_levels run lv (redis_logger bot) = Lredis
  /\ final_levels run lv (getLogger "discord") = Ldiscord
  /\ (forall l, ~ In l [logger; database_logger bot; redis_logger bot; getLogger "discord"] ->
        final_levels run lv l = lv l)
  /\ (forall r s, set_log_level r None s = (Ok tt, s)).
Proof.
  intros Hnd Hg HG Hbot Hdb Hre Hdi run.
  assert (Hne : logger <> database_logger bot /\ logger <> redis_logger bot
                /\ logger <> getLogger "discord"
                /\ database_logger bot <> redis_logger bot
                /\ database_logger bot <> getLogger "discord"
                /\ redis_logger bot <> getLogger "discord").
  { inversion Hnd as [|? ? H1 Hnd1]; subst. inversion Hnd1 as [|? ? H2 Hnd2]; subst.
    inversion Hnd2 as [|? ? H3 _]; subst. simpl in *. intuition congruence. }
  destruct Hne as (N1 & N2 & N3 & N4 & N5 & N6).
  unfold run, outcome, final_levels, set_default_log_levels, bind, emit. simpl.
  rewrite Hg.
  repeat (rewrite (fun r s => set_log_level_named r g G s HG);
          unfold store_level; cbv beta iota).
  unfold logger, getLogger in *. simpl.
  match goal with
  | |- context [set_log_level (LoggerObject "vflbotutils") _ ?s] =>
      destruct (set_log_level_layered (LoggerObject "vflbotutils") G Lbot
                  (ns_loglevel_bot args) s Hbot) as (s1 & E1 & T1 & V1 & F1);
        [eqb_cases|]
  end.
  rewrite E1.
  destruct (set_log_level_layered (LoggerObject (database_logger bot)) G Ldatabase
              (ns_loglevel_database args) s1 Hdb) as (s2 & E2 & T2 & V2 & F2).
  { unfold resolve, getLogger. rewrite F1 by (unfold resolve, getLogger; congruence). eqb_cases. }
  rewrite E2.
  destruct (set_log_level_layered (LoggerObject (redis_logger bot)) G Lredis
              (ns_loglevel_redis args) s2 Hre) as (s3 & E3 & T3 & V3 & F3).
  { unfold resolve, getLogger. rewrite F2, F1 by (unfold resolve, getLogger; congruence). eqb_cases. }
  rewrite E3.
  destruct (set_log_level_layered (LoggerName "discord") G Ldiscord
              (ns_loglevel_discord args) s3 Hdi) as (s4 & E4 & T4 & V4 & F4).
  { unfold resolve, getLogger. rewrite F3, F2, F1 by (unfold resolve, getLogger; congruence). eqb_cases. }
  rewrite E4. unfold resolve, getLogger in *. simpl in *.
  repeat split.
  - rewrite F4, F3, F2 by congruence. exact V1.
  - rewrite F4, F3 by congruence. exact V2.
  - rewrite F4 by congruence. exact V3.
  - exact V4.
  - intros l Hl.
    rewrite F4, F3, F2, F1 by (intros ->; apply Hl; simpl; tauto).
    repeat match goal with
    | |- context [String.eqb ?a ?b] =>
        let E := fresh in destruct (String.eqb_spec a b) as [E|E];
        [exfalso; apply Hl; rewrite E; simpl; tauto|]
    end. reflexivity.
Qed.

(** ** What a computation adds to the trace *)

Section Footprint.

Variable P : event -> bool.

Lemma emits_only_ret {A} (a : A) : emits_only P (ret a).
Proof. intros s. exists []. simpl. rewrite app_nil_r. auto. Qed.

Lemma emits_only_raise {A} (e : exn) : emits_only P (@raise A e).
Proof. intros s. exists []. simpl. rewrite app_nil_r. auto. Qed.

Lemma emits_only_emit (e : event) : P e = true -> emits_only P (emit e).
Proof. intros H s. exists [e]. simpl. rewrite H. auto. Qed.

Lemma emits_only_bind {A B} (m : M A) (f : A -> M B) :
  emits_only P m -> (forall a, emits_only P (f a)) -> emits_only P (bind m f).
Proof.
  intros Hm Hf s. unfold bind. destruct (Hm s) as (t1 & E1 & F1).
  destruct (m s) as [[a|e] s1]; simpl in *.
  - destruct (Hf a s1) as (t2 & E2 & F2). exists (t1 ++ t2).
    rewrite E2, E1, app_assoc, forallb_app, F1, F2. auto.
  - exists t1. auto.
Qed.

Lemma emits_only_call (e : event) (answer : option exn) :
  P e = true -> emits_only P (call e answer).
Proof.
  intros H. unfold call. apply emits_only_bind.
  - apply emits_only_emit, H.
  - intros _. destruct answer; [apply emits_only_raise | apply emits_only_ret].
Qed.

Lemma emits_only_try_except {A} (body : M A) (handlers : list (exc_class * (exn -> M A))) :
  emits_only P body ->
  (forall h e, In h handlers -> emits_only P (snd h e)) ->
  emits_only P (try_except body handlers).
Proof.
  intros Hb Hh s. unfold try_except. destruct (Hb s) as (t1 & E1 & F1).
  destruct (body s) as [[a|e] s1]; simpl in *.
  - exists t1. auto.
  - destruct (find _ handlers) as [h|] eqn:Ef.
    + apply find_some in Ef. destruct Ef as [Hin _].
      destruct (Hh h e Hin s1) as (t2 & E2 & F2). exists (t1 ++ t2).
      rewrite E2, E1, app_assoc, forallb_app, F1, F2. auto.
    + exists t1. auto.
Qed.

Lemma emits_only_for_each {A} (l : list A) (body : A -> M unit) :
  (forall x, emits_only P (body x)) -> emits_only P (for_each l body).
Proof.
  intros Hb. induction l as [|x l IH]; simpl.
  - apply emits_only_ret.
  - apply emits_only_bind; auto.
Qed.

Lemma emits_only_getitem {V} (d : dict V) (k : string) : emits_only P (getitem d k).
Proof.
  unfold getitem. destruct (dict_get d k); [apply emits_only_ret | apply emits_only_raise].
Qed.

Lemma emits_only_enabled (bot : Bot) (resource : string) :
  emits_only P (enabled bot resource).
Proof.
  unfold enabled.
  repeat (apply emits_only_bind; [apply emits_only_getitem | intros ?]).
  apply emits_only_ret.
Qed.

Lemma emits_only_with_database {A} (w : World) (body : M A) :
  P DbAcquire = true -> P DbRelease = true ->
  emits_only P body -> emits_only P (with_database w body).
Proof.
  intros Ha Hr Hb. unfold with_database. apply emits_only_bind.
  - apply emits_only_call, Ha.
  - intros _ s. destruct (Hb s) as (t & E & F).
    destruct (body s) as [r s1]. simpl in *. exists (t ++ [DbRelease]).
    rewrite E, app_assoc, forallb_app, F. simpl. rewrite Hr. auto.
Qed.

End Footprint.

Lemma emits_only_weaken (P Q : event -> bool) {A} (m : M A) :
  (forall e, P e = true -> Q e = true) -> emits_only P m -> emits_only Q m.
Proof.
  intros HPQ Hm s. destruct (Hm s) as (t & E & F). exists t. split; [exact E|].
  rewrite forallb_forall in *. auto.
Qed.

Ltac footprint_step HP :=
  match goal with
  | |- emits_only _ (ret _) => apply emits_only_ret
  | |- emits_only _ (raise _) => apply emits_only_raise
  | |- emits_only _ (getitem _ _) => apply emits_only_getitem
  | |- emits_only _ (enabled _ _) => apply emits_only_enabled
  | |- emits_only _ (emit _) => apply emits_only_emit; apply HP; reflexivity
  | |- emits_only _ (call _ _) => apply emits_only_call; apply HP; reflexivity
  | |- emits_only _ (with_database _ _) =>
      apply emits_only_with_database; [apply HP; reflexivity | apply HP; reflexivity |]
  | |- emits_only _ (for_each _ _) => apply emits_only_for_each; intros ?
  | |- emits_only _ (bind _ _) => apply emits_only_bind; [|intros ?]
  | |- emits_only _ (try_except _ _) =>
      apply emits_only_try_except;
      [| let Hin := fresh "Hin" in
         intros ? ? Hin; simpl in Hin;
         repeat (destruct Hin as [<-|Hin]; [simpl|]); try contradiction ]
  | |- emits_only _ (if ?b then _ else _) => destruct b
  | |- emits_only _ (match ?x with _ => _ end) => destruct x
  end.

Ltac footprint HP := repeat footprint_step HP.

Lemma create_initial_database_footprint (P : event -> bool) (w : World) (bot : Bot) :
  (forall e, is_schema_op e = true -> P e = true) ->
  emits_only P (create_initial_database w bot).
Proof.
  intros HP. unfold create_initial_database, read_schema, run_statement.
  footprint HP.
Qed.

Lemma start_database_pool_footprint (P : event -> bool) (w : World) (bot : Bot) :
  (forall e, is_db_start e = true -> P e = true) ->
  emits_only P (start_database_pool w bot).
Proof.
  intros HP. unfold start_database_pool, logger_info.
  footprint HP.
  apply create_initial_database_footprint.
  intros e He. apply HP. unfold is_db_start. rewrite He. destruct e; reflexivity.
Qed.

Lemma start_redis_pool_footprint (P : event -> bool) (w : World) (bot : Bot) :
  (forall e, is_redis_start e = true -> P e = true) ->
  emits_only P (start_redis_pool w bot).
Proof.
  intros HP. unfold start_redis_pool, logger_info.
  footprint HP.
Qed.

(** ** Stages *)

Section Staging.

Variable phase : event -> option nat.

Lemma phases_app (t1 t2 : list event) :
  phases phase (t1 ++ t2) = phases phase t1 ++ phases phase t2.
Proof. unfold phases. apply flat_map_app. Qed.

Lemma sorted_app (l1 l2 : list nat) (mid : nat) :
  StronglySorted le l1 -> StronglySorted le l2 ->
  Forall (fun p => p <= mid)%nat l1 -> Forall (fun p => mid <= p)%nat l2 ->
  StronglySorted le (l1 ++ l2).
Proof.
  intros S1 S2 F1 F2. induction S1 as [|x l1 S1 IH Hx]; simpl; [exact S2|].
  inversion F1 as [|? ? Hxm F1']; subst.
  constructor; [apply IH, F1'|].
  apply Forall_app. split; [exact Hx|].
  eapply Forall_impl; [|exact F2]. simpl. intros; lia.
Qed.

Lemma ordered_nil (lo hi : nat) : ordered phase lo hi [].
Proof. split; constructor. Qed.

Lemma ordered_app (lo mid hi : nat) (t1 t2 : list event) :
  (lo <= mid <= hi)%nat ->
  ordered phase lo mid t1 -> ordered phase mid hi t2 ->
  ordered phase lo hi (t1 ++ t2).
Proof.
  intros Hm [F1 S1] [F2 S2].
  split; rewrite phases_app.
  - apply Forall_app. split; (eapply Forall_impl; [|eassumption]); simpl; intros; lia.
  - apply (sorted_app _ _ mid); auto;
      (eapply Forall_impl; [|eassumption]); simpl; intros; lia.
Qed.

Lemma ordered_weaken (lo hi lo' hi' : nat) (t : list event) :
  (lo' <= lo)%nat -> (hi <= hi')%nat ->
  ordered phase lo hi t -> ordered phase lo' hi' t.
Proof.
  intros H1 H2 [F S]. split; [|exact S].
  eapply Forall_impl; [|exact F]. simpl. intros; lia.
Qed.

(** A footprint whose staged operations all sit in stage [p]. *)
Lemma footprint_ordered (P : event -> bool) (p : nat) (t : list event) :
  (forall e, P e = true -> phase e = None \/ phase e = Some p) ->
  forallb P t = true -> ordered phase p p t.
Proof.
  intros HP. induction t as [|e t IH]; simpl; intros H; [apply ordered_nil|].
  apply andb_true_iff in H. destruct H as [He Ht].
  change (e :: t) with ([e] ++ t). apply (ordered_app p p p); [lia| |apply IH, Ht].
  unfold ordered, phases. simpl.
  destruct (HP e He) as [-> | ->]; simpl; split; repeat constructor; lia.
Qed.

Lemma staged_footprint (P : event -> bool) (p : nat) {A} (m : M A) :
  (forall e, P e = true -> phase e = None \/ phase e = Some p) ->
  emits_only P m -> staged phase p p m.
Proof.
  intros HP Hm s. destruct (Hm s) as (t & E & F). exists t. split; [exact E|].
  eapply footprint_ordered; eassumption.
Qed.

Lemma staged_weaken (lo hi lo' hi' : nat) {A} (m : M A) :
  (lo' <= lo)%nat -> (hi <= hi')%nat ->
  staged phase lo hi m -> staged phase lo' hi' m.
Proof.
  intros H1 H2 Hm s. destruct (Hm s) as (t & E & O). exists t. split; [exact E|].
  eapply ordered_weaken; eassumption.
Qed.

Lemma staged_bind (lo mid hi : nat) {A B} (m : M A) (f : A -> M B) :
  (lo <= mid <= hi)%nat ->
  staged phase lo mid m -> (forall a, staged phase mid hi (f a)) ->
  staged phase lo hi (bind m f).
Proof.
  intros Hr Hm Hf s. unfold bind. destruct (Hm s) as (t1 & E1 & O1).
  destruct (m s) as [[a|e] s1]; simpl in *.
  - destruct (Hf a s1) as (t2 & E2 & O2). exists (t1 ++ t2).
    rewrite E2, E1, app_assoc. split; [reflexivity|].
    apply (ordered_app lo mid hi); assumption.
  - exists t1. split; [exact E1|].
    apply (ordered_weaken lo mid); [lia | lia | exact O1].
Qed.

Lemma staged_try_except (lo mid hi : nat) {A} (body : M A)
    (handlers : list (exc_class * (exn -> M A))) :
  (lo <= mid <= hi)%nat ->
  staged phase lo mid body ->
  (forall h e, In h handlers -> staged phase mid hi (snd h e)) ->
  staged phase lo hi (try_except body handlers).
Proof.
  intros Hr Hb Hh s. unfold try_except. destruct (Hb s) as (t1 & E1 & O1).
  destruct (body s) as [[a|e] s1]; simpl in *.
  - exists t1. split; [exact E1|]. apply (ordered_weaken lo mid); [lia | lia | exact O1].
  - destruct (find _ handlers) as [h|] eqn:Ef.
    + apply find_some in Ef. destruct Ef as [Hin _].
      destruct (Hh h e Hin s1) as (t2 & E2 & O2). exists (t1 ++ t2).
      rewrite E2, E1, app_assoc. split; [reflexivity|].
      apply (ordered_app lo mid hi); assumption.
    + exists t1. split; [exact E1|].
      apply (ordered_weaken lo mid); [lia | lia | exact O1].
Qed.

End Staging.

(** ** Order of start-up *)

Lemma run_bot_staged (w : World) (bot : Bot) :
  staged startup_phase 1 4 (run_bot w bot).
Proof.
  assert (U : forall (p : nat) A (m : M A), emits_only unstaged m -> staged startup_phase p p m).
  { intros p A m. apply staged_footprint. intros e He. left.
    unfold unstaged in He. destruct (startup_phase e); [discriminate | reflexivity]. }
  unfold run_bot, logger_info.
  apply (staged_bind _ 1 1 4); [lia | | intros _].
  { apply U. footprint (fun e (H : unstaged e = true) => H). }
  apply (staged_bind _ 1 1 4); [lia | | intros _].
  { apply (staged_footprint _ is_db_start).
    - intros e He. destruct e; simpl in *; auto; discriminate.
    - apply start_database_pool_footprint. auto. }
  apply (staged_bind _ 1 2 4); [lia | | intros _].
  { apply (staged_weaken _ 2 2); [lia | lia |].
    apply (staged_footprint _ is_redis_start).
    - intros e He. destruct e; simpl in *; auto; discriminate.
    - apply start_redis_pool_footprint. auto. }
  apply (staged_bind _ 2 2 4); [lia | | intros _].
  { apply U. footprint (fun e (H : unstaged e = true) => H). }
  apply (staged_bind _ 2 3 4); [lia | | intros _].
  { apply (staged_weaken _ 3 3); [lia | lia |].
    apply (staged_footprint _ (fun e => if event_eq_dec e LoadAllExtensions then true else false)).
    - intros e He. destruct (event_eq_dec e LoadAllExtensions); [subst; auto | discriminate].
    - footprint (fun e (H : (if event_eq_dec e LoadAllExtensions then true else false) = true) => H). }
  apply (staged_bind _ 3 4 4); [lia | | intros _].
  { apply (staged_weaken _ 4 4); [lia | lia |].
    apply (staged_footprint _ is_run_op).
    - intros e He. destruct e; simpl in *; auto; discriminate.
    - footprint (fun e (H : is_run_op e = true) => H). }
  apply U. footprint (fun e (H : unstaged e = true) => H).
Qed.

(** Read on positions: nothing of an earlier stage follows an operation of
    a later stage. *)
Lemma run_bot_startup_no_return (w : World) (bot : Bot) (lv : Logger -> Z)
    (t1 t2 : list event) (e e' : event) (p q : nat) :
  events (run_bot w bot) lv = t1 ++ e :: t2 ->
  In e' t2 ->
  startup_phase e = Some p -> startup_phase e' = Some q ->
  (p <= q)%nat.
Proof.
  intros Ht Hin Hp Hq.
  assert (S : StronglySorted le (phases startup_phase (events (run_bot w bot) lv))).
  { unfold events. destruct (run_bot_staged w bot (initial lv)) as (t & E & _ & S).
    rewrite E. exact S. }
  rewrite Ht in S.
  rewrite phases_app in S. change (e :: t2) with ([e] ++ t2) in S.
  rewrite phases_app in S. unfold phases at 2 in S. simpl in S. rewrite Hp in S. simpl in S.
  assert (S' : StronglySorted le (p :: phases startup_phase t2)).
  { clear - S. induction (phases startup_phase t1) as [|x l IH]; simpl in S; [exact S|].
    inversion S; auto. }
  inversion S' as [|? ? _ F]; subst.
  rewrite Forall_forall in F. apply F.
  unfold phases. apply in_flat_map. exists e'. split; [exact Hin|].
  rewrite Hq. simpl. auto.
Qed.

(** ** The pool starters *)

Lemma enabled_run (bot : Bot) (resource : string) (b : bool) (s : state) :
  enabled_flag bot resource = Some b -> enabled bot resource s = (Ok b, s).
Proof.
  unfold enabled_flag, enabled, getitem, bind.
  destruct (dict_get (config bot) resource) as [section|]; [|discriminate].
  simpl. destruct (dict_get section "enabled") as [flag|]; [|discriminate].
  simpl. intros H. injection H as <-. reflexivity.
Qed.

Lemma enabled_section (bot : Bot) (resource : string) (b : bool) :
  enabled_flag bot resource = Some b ->
  exists section, dict_get (config bot) resource = Some section.
Proof.
  unfold enabled_flag. destruct (dict_get (config bot) resource) as [section|];
    [eauto | discriminate].
Qed.

Lemma emits_only_bind_enabled (P : event -> bool) (bot : Bot) (resource : string)
    (b : bool) {B} (f : bool -> M B) :
  enabled_flag bot resource = Some b ->
  emits_only P (f b) -> emits_only P (bind (enabled bot resource) f).
Proof.
  intros Hb Hf s. unfold bind. rewrite (enabled_run _ _ _ _ Hb). apply Hf.
Qed.

Lemma start_database_pool_disabled (w : World) (bot : Bot) (s : state) :
  enabled_flag bot "database" = Some false ->
  start_database_pool w bot s
  = (Ok tt, mkState (levels s)
              (trace s ++ [LogCall INFO "Database connection has been disabled"])).
Proof.
  intros H. unfold start_database_pool, bind. rewrite (enabled_run _ _ _ _ H). reflexivity.
Qed.

Lemma start_redis_pool_disabled (w : World) (bot : Bot) (s : state) :
  enabled_flag bot "redis" = Some false ->
  start_redis_pool w bot s
  = (Ok tt, mkState (levels s)
              (trace s ++ [LogCall INFO "Redis connection has been disabled"])).
Proof.
  intros H. unfold start_redis_pool, bind. rewrite (enabled_run _ _ _ _ H). reflexivity.
Qed.

Lemma run_bot_without_database (w : World) (bot : Bot) :
  enabled_flag bot "database" = Some false ->
  emits_only (fun e => negb (is_db_op e)) (run_bot w bot).
Proof.
  intros H. set (P := fun e => negb (is_db_op e)).
  assert (HP : forall e, P e = true -> P e = true) by auto.
  unfold run_bot, logger_info.
  apply emits_only_bind; [footprint HP | intros _].
  apply emits_only_bind; [|intros _].
  { intros s. rewrite (start_database_pool_disabled w bot s H). simpl. eauto. }
  apply emits_only_bind; [|intros _].
  { apply start_redis_pool_footprint. intros e He. destruct e; try discriminate; reflexivity. }
  do 3 (apply emits_only_bind; [footprint HP | intros _]).
  apply (emits_only_bind_enabled _ _ _ false); [exact H|].
  footprint HP.
Qed.

Lemma run_bot_without_redis (w : World) (bot : Bot) :
  enabled_flag bot "redis" = Some false ->
  emits_only (fun e => negb (is_redis_op e)) (run_bot w bot).
Proof.
  intros H. set (P := fun e => negb (is_redis_op e)).
  assert (HP : forall e, P e = true -> P e = true) by auto.
  unfold run_bot, logger_info.
  apply emits_only_bind; [footprint HP | intros _].
  apply emits_only_bind; [|intros _].
  { apply start_database_pool_footprint. intros e He. destruct e; try discriminate; reflexivity. }
  apply emits_only_bind; [|intros _].
  { intros s. rewrite (start_redis_pool_disabled w bot s H). simpl. eauto. }
  do 4 (apply emits_only_bind; [footprint HP | intros ?]).
  apply emits_only_bind; [footprint HP | intros _].
  apply (emits_only_bind_enabled _ _ _ false); [exact H|].
  footprint HP.
Qed.

(** C8. With the flag of a resource false, its starter returns after the
    single log call saying the resource is disabled, and a whole run of
    [run_bot] contains no operation on that pool: no creation, for the
    database no schema bootstrap, and no close. *)
Theorem disabled_resource_skipped :
  (forall w bot lv,
     enabled_flag bot "database" = Some false ->
     start_database_pool w bot (initial lv)
     = (Ok tt, mkState lv [LogCall INFO "Database connection has been disabled"])
     /\ forallb (fun e => negb (is_db_op e)) (events (run_bot w bot) lv) = true)
  /\
  (forall w bot lv,
     enabled_flag bot "redis" = Some false ->
     start_redis_pool w bot (initial lv)
     = (Ok tt, mkState lv [LogCall INFO "Redis connection has been disabled"])
     /\ forallb (fun e => negb (is_redis_op e)) (events (run_bot w bot) lv) = true).
Proof.
  split; intros w bot lv H; split.
  - apply start_database_pool_disabled, H.
  - unfold events. destruct (run_bot_without_database w bot H (initial lv)) as (t & E & F).
    rewrite E. exact F.
  - apply start_redis_pool_disabled, H.
  - unfold events. destruct (run_bot_without_redis w bot H (initial lv)) as (t & E & F).
    rewrite E. exact F.
Qed.

Lemma start_database_pool_failure (w : World) (bot : Bot) (s : state) (e : exn) :
  enabled_flag bot "database" = Some true ->
  db_create_pool w = Some e ->
  start_database_pool w bot s
  = (match find (fun h : exc_class * string => isinstance e (fst h))
             [(KeyError, msg_db_key_error); (ConnectionRefusedError, msg_db_refused);
              (Exception, msg_db_error)] with
     | Some h => Raise (Exn Exception (snd h))
     | None => Raise e
     end,
     mkState (levels s) (trace s ++ [LogCall INFO "Creating database pool"; DbCreatePool])).
Proof.
  intros Hon He. destruct (enabled_section _ _ _ Hon) as [section Hs].
  unfold start_database_pool, bind, try_except, getitem, call, logger_info, emit, bind.
  rewrite (enabled_run _ _ _ _ Hon), Hs, He. simpl. rewrite <- app_assoc. simpl.
  destruct (isinstance e KeyError); [reflexivity|].
  destruct (isinstance e ConnectionRefusedError); [reflexivity|].
  destruct (isinstance e Exception); reflexivity.
Qed.

Lemma start_redis_pool_failure (w : World) (bot : Bot) (s : state) (e : exn) :
  enabled_flag bot "redis" = Some true ->
  redis_create_pool w = Some e ->
  start_redis_pool w bot s
  = (match find (fun h : exc_class * exn => isinstance e (fst h))
             [(KeyError, Exn KeyError msg_redis_key_error);
              (ConnectionRefusedError, Exn ConnectionRefusedError msg_redis_refused);
              (Exception, Exn Exception msg_redis_error)] with
     | Some h => Raise (snd h)
     | None => Raise e
     end,
     mkState (levels s) (trace s ++ [LogCall INFO "Creating redis pool"; RedisCreatePool])).
Proof.
  intros Hon He. destruct (enabled_section _ _ _ Hon) as [section Hs].
  unfold start_redis_pool, bind, try_except, getitem, call, logger_info, emit, bind.
  rewrite (enabled_run _ _ _ _ Hon), Hs, He. simpl. rewrite <- app_assoc. simpl.
  destruct (isinstance e KeyError); [reflexivity|].
  destruct (isinstance e ConnectionRefusedError); [reflexivity|].
  destruct (isinstance e Exception); reflexivity.
Qed.

(** C3. With the resource enabled and pool creation raising [e], each
    starter calls the pool creation once and raises to its caller: for a
    [KeyError] an error whose message asks for the resource's object in the
    config, for a [ConnectionRefusedError] an error whose message asks
    whether the right information is in the config and whether the service
    is running, for any other [Exception] a plain start error. The three
    errors of a starter differ from one another. *)
Theorem pool_creation_failure (w : World) (bot : Bot) (lv : Logger -> Z) (e : exn) :
  (enabled_flag bot "database" = Some true -> db_create_pool w = Some e ->
     let run := start_database_pool w bot in
     events run lv = [LogCall INFO "Creating database pool"; DbCreatePool]
     /\ (isinstance e KeyError = true ->
           outcome run lv = Raise (Exn Exception msg_db_key_error))
     /\ (isinstance e ConnectionRefusedError = true ->
           outcome run lv = Raise (Exn Exception msg_db_refused))
     /\ (isinstance e Exception = true -> isinstance e KeyError = false ->
         isinstance e ConnectionRefusedError = false ->
           outcome run lv = Raise (Exn Exception msg_db_error)))
  /\
  (enabled_flag bot "redis" = Some true -> redis_create_pool w = Some e ->
     let run := start_redis_pool w bot in
     events run lv = [LogCall INFO "Creating redis pool"; RedisCreatePool]
     /\ (isinstance e KeyError = true ->
           outcome run lv = Raise (Exn KeyError msg_redis_key_error))
     /\ (isinstance e ConnectionRefusedError = true ->
           outcome run lv = Raise (Exn ConnectionRefusedError msg_redis_refused))
     /\ (isinstance e Exception = true -> isinstance e KeyError = false ->
         isinstance e ConnectionRefusedError = false ->
           outcome run lv = Raise (Exn Exception msg_redis_error)))
  /\
  (contains "'database' object" msg_db_key_error = true
   /\ contains "'redis' object" msg_redis_key_error = true
   /\ contains "did you set the right information in the config" msg_db_refused = true
   /\ contains "running?" msg_db_refused = true
   /\ contains "did you set the right information in the config" msg_redis_refused = true
   /\ contains "running?" msg_redis_refused = true
   /\ msg_db_key_error <> msg_db_refused /\ msg_db_refused <> msg_db_error
   /\ msg_db_key_error <> msg_db_error
   /\ msg_redis_key_error <> msg_redis_refused /\ msg_redis_refused <> msg_redis_error
   /\ msg_redis_key_error <> msg_redis_error).
Proof.
  split; [|split].
  - intros Hon He run. unfold run, events, outcome.
    rewrite (start_database_pool_failure w bot (initial lv) e Hon He). simpl.
    split; [reflexivity|]. repeat split.
    + intros ->. reflexivity.
    + intros H. destruct e as [c msg|code]; [destruct c|]; try discriminate H; reflexivity.
    + intros H1 H2 H3. rewrite H2, H3, H1. reflexivity.
  - intros Hon He run. unfold run, events, outcome.
    rewrite (start_redis_pool_failure w bot (initial lv) e Hon He). simpl.
    split; [reflexivity|]. repeat split.
    + intros ->. reflexivity.
    + intros H. destruct e as [c msg|code]; [destruct c|]; try discriminate H; reflexivity.
    + intros H1 H2 H3. rewrite H2, H3, H1. reflexivity.
  - repeat split; try reflexivity; discriminate.
Qed.

(** ** The schema bootstrap *)

Lemma for_each_run_statement (w : World) (l : list text) (s : state) :
  (forall st, In st (map strip (filter is_statement l)) -> db_execute w st = None) ->
  for_each l (run_statement w) s
  = (Ok tt, mkState (levels s)
              (trace s ++ map DbExecute (map strip (filter is_statement l)))).
Proof.
  revert s. induction l as [|i l IH]; intros s Hok; simpl.
  - rewrite app_nil_r. destruct s; reflexivity.
  - unfold bind. unfold run_statement at 1. fold (is_statement i).
    simpl in Hok. destruct (is_statement i) eqn:Ei.
    + simpl in Hok. unfold call, bind, emit. simpl.
      rewrite (Hok (strip i)) by auto. simpl.
      rewrite IH by (intros st Hst; apply Hok; auto).
      simpl. rewrite <- app_assoc. reflexivity.
    + simpl. apply IH, Hok.
Qed.

Lemma lstrip_all_space (s : text) : all_space s = true -> lstrip s = [].
Proof.
  induction s as [|c r IH]; simpl; [reflexivity|].
  intros H. apply andb_true_iff in H. destruct H as [Hc Hr].
  rewrite Hc. apply IH, Hr.
Qed.

Lemma split_all_space (s : text) : all_space s = true -> split (code ";") s = [s].
Proof.
  change (code ";") with 59%N.
  induction s as [|c r IH]; cbn [split all_space]; [reflexivity|].
  intros H. apply andb_true_iff in H. destruct H as [Hc Hr].
  destruct (N.eqb_spec c 59) as [->|_]; [discriminate Hc|].
  rewrite (IH Hr). reflexivity.
Qed.

Lemma statements_all_space (data : text) :
  all_space data = true -> statements data = [].
Proof.
  intros H. unfold statements. rewrite (split_all_space data H). simpl.
  unfold is_statement, strip. rewrite (lstrip_all_space data H). simpl.
  rewrite andb_false_r. reflexivity.
Qed.

Lemma create_initial_database_absent (w : World) (bot : Bot) (s : state) (e : exn) :
  schema_file w = inr e -> isinstance e Exception = true ->
  create_initial_database w bot s
  = (Ok false, mkState (levels s) (trace s ++ [OpenSchema schema_path])).
Proof.
  intros Hf He.
  unfold create_initial_database, bind, try_except, read_schema, bind, emit.
  simpl. rewrite Hf. simpl. rewrite He. reflexivity.
Qed.

Lemma create_initial_database_present (w : World) (bot : Bot) (s : state) (data : text) :
  schema_file w = inl data ->
  db_acquire w = None ->
  (forall st, In st (statements data) -> db_execute w st = None) ->
  create_initial_database w bot s
  = (Ok true,
     mkState (levels s)
       (trace s ++ [OpenSchema schema_path; DbAcquire]
                ++ map DbExecute (statements data) ++ [DbRelease])).
Proof.
  intros Hf Ha Hok.
  unfold create_initial_database, bind, try_except, read_schema, bind, emit.
  simpl. rewrite Hf. simpl.
  unfold with_database, call, bind, emit. rewrite Ha. simpl.
  rewrite (for_each_run_statement w (split (code ";") data) _ Hok). simpl.
  unfold statements. rewrite <- !app_assoc. reflexivity.
Qed.

(** C2, against the claim. A schema file that is empty, or holds white
    space only, is not reported as skipped: no statement is executed, a
    connection is taken and given back, and the call returns [True], as it
    does after a bootstrap with statements; [False] is kept for the file that
    cannot be read. *)
Lemma create_initial_database_blank_not_skipped :
  let lv := fun _ : Logger => NOTSET in
  let bot := sample_bot true true in
  outcome (create_initial_database (quiet_world (inl (txt ""))) bot) lv = Ok true
  /\ outcome (create_initial_database (quiet_world (inl (txt ""))) bot) lv <> Ok false
  /\ events (create_initial_database (quiet_world (inl (txt ""))) bot) lv
     = [OpenSchema schema_path; DbAcquire; DbRelease]
  /\ outcome (create_initial_database (quiet_world (inl (txt "   "))) bot) lv = Ok true
  /\ outcome (create_initial_database (quiet_world (inl (txt "   "))) bot) lv <> Ok false
  /\ outcome (create_initial_database (quiet_world (inl sample_schema)) bot) lv = Ok true
  /\ outcome (create_initial_database
                (quiet_world (inr (Exn OSError "No such file or directory"))) bot) lv
     = Ok false.
Proof. repeat split; discriminate. Qed.

(** C2, amended. A schema file that cannot be read makes the call return
    [False] after the attempt to open it. A file that is read is split on
    [;]; the fragments that are not blank are executed, stripped, one after
    the other in the order of the text, between one acquisition of a
    connection and its release, and the call returns [True] (provided the
    acquisition and each statement succeed). A file of white space only has
    no statement, so it takes that second path with nothing executed. *)
Theorem create_initial_database_behaviour :
  (forall w bot lv e,
     schema_file w = inr e -> isinstance e Exception = true ->
     outcome (create_initial_database w bot) lv = Ok false
     /\ events (create_initial_database w bot) lv = [OpenSchema schema_path])
  /\
  (forall w bot lv data,
     schema_file w = inl data -> db_acquire w = None ->
     (forall st, In st (statements data) -> db_execute w st = None) ->
     outcome (create_initial_database w bot) lv = Ok true
     /\ events (create_initial_database w bot) lv
        = [OpenSchema schema_path; DbAcquire]
          ++ map DbExecute (statements data) ++ [DbRelease])
  /\
  (forall data, all_space data = true -> statements data = []).
Proof.
  split; [|split].
  - intros w bot lv e Hf He. unfold outcome, events.
    rewrite (create_initial_database_absent w bot _ e Hf He). auto.
  - intros w bot lv data Hf Ha Hok. unfold outcome, events.
    rewrite (create_initial_database_present w bot _ data Hf Ha Hok). auto.
  - apply statements_all_space.
Qed.

Lemma create_initial_database_behaviour_witness :
  (outcome (create_initial_database
              (quiet_world (inr (Exn OSError "No such file or directory")))
              (sample_bot true true)) (fun _ => NOTSET) = Ok false
   /\ events (create_initial_database
                (quiet_world (inr (Exn OSError "No such file or directory")))
                (sample_bot true true)) (fun _ => NOTSET) = [OpenSchema schema_path])
  /\
  (outcome (create_initial_database (quiet_world (inl sample_schema))
              (sample_bot true true)) (fun _ => NOTSET) = Ok true
   /\ events (create_initial_database (quiet_world (inl sample_schema))
                (sample_bot true true)) (fun _ => NOTSET)
      = [OpenSchema schema_path; DbAcquire]
        ++ map DbExecute (statements sample_schema) ++ [DbRelease])
  /\ statements sample_schema = [txt "CREATE TABLE a(x int)"; txt "CREATE TABLE b(y int)"]
  /\ statements (txt "   ") = [].
Proof.
  destruct create_initial_database_behaviour as (Habsent & Hpresent & Hblank).
  split; [|split; [|split]].
  - apply (Habsent (quiet_world (inr (Exn OSError "No such file or directory")))
             (sample_bot true true) (fun _ => NOTSET)
             (Exn OSError "No such file or directory")); reflexivity.
  - apply (Hpresent (quiet_world (inl sample_schema)) (sample_bot true true)
             (fun _ => NOTSET) sample_schema); reflexivity.
  - reflexivity.
  - apply (Hblank (txt "   ")). reflexivity.
Defined.

(** ** Run and shut-down *)

Lemma bind_assoc {A B C} (m : M A) (f : A -> M B) (g : B -> M C) (s : state) :
  bind (bind m f) g s = bind m (fun a => bind (f a) g) s.
Proof. unfold bind. destruct (m s) as [[a|e] s']; reflexivity. Qed.

Lemma bind_ext {A B} (m : M A) (f g : A -> M B) (s : state) :
  (forall a s', f a s' = g a s') -> bind m f s = bind m g s.
Proof. intros H. unfold bind. destruct (m s) as [[a|e] s']; auto. Qed.

Lemma run_bot_split (w : World) (bot : Bot) (s : state) :
  run_bot w bot s = bind (startup w bot) (fun _ => run_and_close w bot) s.
Proof.
  unfold startup, run_bot.
  rewrite bind_assoc. apply bind_ext. intros _ s1.
  rewrite bind_assoc. apply bind_ext. intros _ s2.
  rewrite bind_assoc. apply bind_ext. intros _ s3.
  rewrite bind_assoc. apply bind_ext. intros _ s4.
  reflexivity.
Qed.

Lemma startup_footprint (w : World) (bot : Bot) :
  emits_only (fun e => negb (is_lifecycle_op e)) (startup w bot).
Proof.
  set (P := fun e => negb (is_lifecycle_op e)).
  assert (HP : forall e, P e = true -> P e = true) by auto.
  unfold startup, logger_info.
  apply emits_only_bind; [footprint HP | intros _].
  apply emits_only_bind; [|intros _].
  { apply start_database_pool_footprint. intros e He. destruct e; try discriminate; reflexivity. }
  apply emits_only_bind; [|intros _].
  { apply start_redis_pool_footprint. intros e He. destruct e; try discriminate; reflexivity. }
  footprint HP.
Qed.

Lemma filter_none {A} (P : A -> bool) (l : list A) :
  forallb (fun x => negb (P x)) l = true -> filter P l = [].
Proof.
  induction l as [|x l IH]; simpl; [reflexivity|].
  intros H. apply andb_true_iff in H. destruct H as [Hx Hl].
  apply negb_true_iff in Hx. rewrite Hx. apply IH, Hl.
Qed.

(** The lifecycle operations of the second half, read off the answers of
    the collaborators. *)
Lemma run_and_close_ops (w : World) (bot : Bot) (s : state) :
  enabled_flag bot "database" = Some true ->
  enabled_flag bot "redis" = Some true ->
  exists tail,
    trace (snd (run_and_close w bot s)) = trace s ++ tail
    /\ filter is_lifecycle_op tail
       = BotStart ::
         (let closes :=
            DbPoolClose ::
            match db_pool_close w with None => [RedisPoolClose] | Some _ => [] end in
          match bot_start w with
          | None => closes
          | Some e =>
              if isinstance e KeyboardInterrupt then
                BotLogout :: match bot_logout w with None => closes | Some _ => [] end
              else []
          end).
Proof.
  intros Hdb Hre.
  unfold run_and_close, bind, try_except, call, logger_info, emit, bind.
  simpl.
  destruct (bot_start w) as [e|]; simpl;
    [destruct (isinstance e KeyboardInterrupt); simpl;
     [destruct (bot_logout w); simpl|]|];
    rewrite ?(enabled_run _ _ _ _ Hdb); simpl;
    try (destruct (db_pool_close w); simpl;
         rewrite ?(enabled_run _ _ _ _ Hre); simpl;
         try (destruct (redis_pool_close w); simpl));
    rewrite <- ?app_assoc; simpl; eexists; (split; [reflexivity|]); reflexivity.
Qed.

Lemma count_occ_lifecycle (l : list event) (x : event) :
  is_lifecycle_op x = true ->
  count_occ event_eq_dec l x = count_occ event_eq_dec (filter is_lifecycle_op l) x.
Proof.
  intros Hx. induction l as [|a l IH]; [reflexivity|].
  simpl. destruct (is_lifecycle_op a) eqn:Ea; simpl;
    destruct (event_eq_dec a x) as [->|Hne]; try congruence; auto.
Qed.

Lemma run_bot_lifecycle (w : World) (bot : Bot) (lv : Logger -> Z) :
  enabled_flag bot "database" = Some true ->
  enabled_flag bot "redis" = Some true ->
  let ops := filter is_lifecycle_op (events (run_bot w bot) lv) in
  ops = []
  \/ ops = BotStart ::
           (let closes :=
              DbPoolClose ::
              match db_pool_close w with None => [RedisPoolClose] | Some _ => [] end in
            match bot_start w with
            | None => closes
            | Some e =>
                if isinstance e KeyboardInterrupt then
                  BotLogout :: match bot_logout w with None => closes | Some _ => [] end
                else []
            end).
Proof.
  intros Hdb Hre ops. unfold ops, events. rewrite run_bot_split. unfold bind.
  destruct (startup_footprint w bot (initial lv)) as (pre & E & F).
  destruct (startup w bot (initial lv)) as [[[]|x] s1]; simpl in E.
  - right. destruct (run_and_close_ops w bot s1 Hdb Hre) as (tail & Et & Fo).
    rewrite Et, E, filter_app, (filter_none _ _ F), Fo. reflexivity.
  - left. simpl. rewrite E. apply filter_none, F.
Qed.

Lemma enabled_pure (bot : Bot) (resource : string) :
  exists x, forall s, enabled bot resource s = (x, s).
Proof.
  unfold enabled, getitem, bind.
  destruct (dict_get (config bot) resource) as [section|]; simpl.
  - destruct (dict_get section "enabled") as [flag|]; simpl;
      eexists; intros s; reflexivity.
  - eexists; intros s; reflexivity.
Qed.

(** ** Computations that ignore the state *)

Section Logless.

Lemma logless_ret {A} (a : A) : logless (ret a).
Proof. exists (Ok a), []. intros s. unfold ret. rewrite app_nil_r. destruct s; reflexivity. Qed.

Lemma logless_raise {A} (e : exn) : logless (@raise A e).
Proof. exists (Raise e), []. intros s. unfold raise. rewrite app_nil_r. destruct s; reflexivity. Qed.

Lemma logless_emit (e : event) : logless (emit e).
Proof. exists (Ok tt), [e]. intros s. reflexivity. Qed.

Lemma logless_bind {A B} (m : M A) (f : A -> M B) :
  logless m -> (forall a, logless (f a)) -> logless (bind m f).
Proof.
  intros (r & t & Hm) Hf. destruct r as [a|e].
  - destruct (Hf a) as (r' & t' & Hfa). exists r', (t ++ t'). intros s.
    unfold bind. rewrite Hm, Hfa. simpl. rewrite app_assoc. reflexivity.
  - exists (Raise e), t. intros s. unfold bind. rewrite Hm. reflexivity.
Qed.

Lemma logless_call (e : event) (answer : option exn) : logless (call e answer).
Proof.
  unfold call. apply logless_bind; [apply logless_emit|].
  intros _. destruct answer; [apply logless_raise | apply logless_ret].
Qed.

Lemma logless_try_except {A} (body : M A) (handlers : list (exc_class * (exn -> M A))) :
  logless body ->
  (forall h e, In h handlers -> logless (snd h e)) ->
  logless (try_except body handlers).
Proof.
  intros (r & t & Hb) Hh. destruct r as [a|e].
  - exists (Ok a), t. intros s. unfold try_except. rewrite Hb. reflexivity.
  - destruct (find (fun h : exc_class * (exn -> M A) => isinstance e (fst h)) handlers)
      as [h|] eqn:Ef.
    + pose proof Ef as Hin. apply find_some in Hin. destruct Hin as [Hin _].
      destruct (Hh h e Hin) as (r' & t' & Hhe). exists r', (t ++ t'). intros s.
      unfold try_except. rewrite Hb, Ef, Hhe. simpl. rewrite app_assoc. reflexivity.
    + exists (Raise e), t. intros s. unfold try_except. rewrite Hb, Ef. reflexivity.
Qed.

Lemma logless_for_each {A} (l : list A) (body : A -> M unit) :
  (forall x, logless (body x)) -> logless (for_each l body).
Proof.
  intros Hb. induction l as [|x l IH]; simpl.
  - apply logless_ret.
  - apply logless_bind; auto.
Qed.

Lemma logless_getitem {V} (d : dict V) (k : string) : logless (getitem d k).
Proof.
  unfold getitem. destruct (dict_get d k); [apply logless_ret | apply logless_raise].
Qed.

Lemma logless_enabled (bot : Bot) (resource : string) : logless (enabled bot resource).
Proof.
  unfold enabled.
  repeat (apply logless_bind; [apply logless_getitem | intros ?]).
  apply logless_ret.
Qed.

Lemma logless_with_database {A} (w : World) (body : M A) :
  logless body -> logless (with_database w body).
Proof.
  intros (r & t & Hb). unfold with_database. apply logless_bind.
  - apply logless_call.
  - intros _. exists r, (t ++ [DbRelease]). intros s. rewrite Hb. simpl.
    rewrite app_assoc. reflexivity.
Qed.

End Logless.

Ltac logless_step :=
  match goal with
  | |- logless (ret _) => apply logless_ret
  | |- logless (raise _) => apply logless_raise
  | |- logless (getitem _ _) => apply logless_getitem
  | |- logless (enabled _ _) => apply logless_enabled
  | |- logless (emit _) => apply logless_emit
  | |- logless (call _ _) => apply logless_call
  | |- logless (with_database _ _) => apply logless_with_database
  | |- logless (for_each _ _) => apply logless_for_each; intros ?
  | |- logless (bind _ _) => apply logless_bind; [|intros ?]
  | |- logless (try_except _ _) =>
      apply logless_try_except;
      [| let Hin := fresh "Hin" in
         intros ? ? Hin; simpl in Hin;
         repeat (destruct Hin as [<-|Hin]; [simpl|]); try contradiction ]
  | |- logless (if ?b then _ else _) => destruct b
  | |- logless (match ?x with _ => _ end) => destruct x
  end.

Lemma create_initial_database_logless (w : World) (bot : Bot) :
  logless (create_initial_database w bot).
Proof.
  unfold create_initial_database, read_schema, run_statement. repeat logless_step.
Qed.

Lemma start_database_pool_logless (w : World) (bot : Bot) :
  logless (start_database_pool w bot).
Proof.
  unfold start_database_pool, logger_info. repeat logless_step.
  apply create_initial_database_logless.
Qed.

Lemma start_redis_pool_logless (w : World) (bot : Bot) :
  logless (start_redis_pool w bot).
Proof. unfold start_redis_pool, logger_info. repeat logless_step. Qed.

(** What follows the loading of the extensions begins with the client's
    run and holds no operation of the start-up after it. *)
Lemma run_and_close_begins (w : World) (bot : Bot) (s : state) :
  exists rest,
    trace (snd (run_and_close w bot s))
    = trace s ++ [LogCall INFO "Running bot"; BotStart] ++ rest
    /\ forallb unstaged rest = true.
Proof.
  destruct (enabled_pure bot "database") as [xd Hd].
  destruct (enabled_pure bot "redis") as [xr Hr].
  unfold run_and_close, bind, try_except, call, logger_info, emit, bind. simpl.
  destruct (bot_start w) as [e|]; simpl;
    [destruct (isinstance e KeyboardInterrupt); simpl;
     [destruct (bot_logout w); simpl|]|];
    rewrite ?Hd; destruct xd as [[|]|ed]; simpl;
    try (destruct (db_pool_close w); simpl);
    rewrite ?Hr; destruct xr as [[|]|er]; simpl;
    try (destruct (redis_pool_close w); simpl);
    rewrite <- ?app_assoc; simpl; eexists; split; reflexivity.
Qed.

(** C4. Every run of [run_bot] is made of these parts, in this order and
    with nothing in between: the whole of the database start (pool
    creation and schema bootstrap, up to its return); then, only if that
    returned, the whole of the redis start; then, only if that returned, the
    loading of the extensions; then, only if that returned, the client's
    run, after which no operation of the start-up occurs any more. Each
    starter does the same whatever the state it is called in, the database
    start does database operations only, the redis start creates the redis
    pool only, and the stages of the trace never go backwards. *)
Theorem run_bot_startup_order (w : World) (bot : Bot) (lv : Logger -> Z) :
  let db := start_database_pool w bot in
  let redis := start_redis_pool w bot in
  let t := events (run_bot w bot) lv in
  StronglySorted le (phases startup_phase t)
  /\ logless db /\ logless redis
  /\ forallb is_db_start (events db lv) = true
  /\ forallb is_redis_start (events redis lv) = true
  /\ exists rest,
       forallb unstaged rest = true
       /\ t = (if win32 w then [SetProactorLoop] else [])
              ++ events db lv
              ++ match outcome db lv with
                 | Raise _ => []
                 | Ok _ =>
                     events redis lv
                     ++ match outcome redis lv with
                        | Raise _ => []
                        | Ok _ =>
                            [LogCall INFO "Loading extensions... "; LoadAllExtensions]
                            ++ match load_all_extensions w with
                               | Some _ => []
                               | None => [LogCall INFO "Running bot"; BotStart] ++ rest
                               end
                        end
                 end.
Proof.
  intros db redis t. split; [|split; [|split; [|split; [|split]]]].
  - unfold t, events. destruct (run_bot_staged w bot (initial lv)) as (t' & E & _ & S).
    rewrite E. exact S.
  - apply start_database_pool_logless.
  - apply start_redis_pool_logless.
  - unfold db, events.
    destruct (start_database_pool_footprint is_db_start w bot (fun e H => H) (initial lv))
      as (t' & E & F). rewrite E. exact F.
  - unfold redis, events.
    destruct (start_redis_pool_footprint is_redis_start w bot (fun e H => H) (initial lv))
      as (t' & E & F). rewrite E. exact F.
  - destruct (start_database_pool_logless w bot) as (rd & td & Hd).
    destruct (start_redis_pool_logless w bot) as (rr & tr & Hr).
    unfold t, db, redis, events, outcome. rewrite run_bot_split.
    rewrite (Hd (initial lv)), (Hr (initial lv)).
    unfold startup, bind, logger_info, call, emit, bind.
    destruct (win32 w); simpl; rewrite Hd; simpl;
      (destruct rd as [[]|ed]; simpl;
       [|exists []; split; [reflexivity | rewrite ?app_nil_r; reflexivity]]);
      rewrite Hr; simpl;
      (destruct rr as [[]|er]; simpl;
       [|exists []; split;
         [reflexivity | rewrite <- ?app_assoc, ?app_nil_r; reflexivity]]);
      (destruct (load_all_extensions w) as [el|]; simpl;
       [exists []; split;
        [reflexivity | rewrite <- ?app_assoc, ?app_nil_r; reflexivity]|]);
      match goal with
      | |- context [run_and_close w bot ?st] =>
          destruct (run_and_close_begins w bot st) as (rest & E & F)
      end;
      exists rest; (split; [exact F|]); rewrite E; simpl;
      rewrite <- ?app_assoc; reflexivity.
Qed.

(** When the client is interrupted, the logout follows its start, and
    only pool closes follow the logout. *)
Lemma run_and_close_interrupted (w : World) (bot : Bot) (s : state) (e : exn) :
  bot_start w = Some e -> isinstance e KeyboardInterrupt = true ->
  exists tail closes,
    trace (snd (run_and_close w bot s)) = trace s ++ tail
    /\ filter is_lifecycle_op tail = BotStart :: BotLogout :: closes
    /\ forallb is_pool_close closes = true
    /\ count_occ event_eq_dec (filter is_lifecycle_op tail) BotLogout = 1%nat.
Proof.
  intros Hs Hi.
  destruct (enabled_pure bot "database") as [xd Hd].
  destruct (enabled_pure bot "redis") as [xr Hr].
  unfold run_and_close, bind, try_except, call, logger_info, emit, bind. simpl.
  rewrite Hs. simpl. rewrite Hi. simpl.
  destruct (bot_logout w); simpl;
    rewrite ?Hd; destruct xd as [[|]|ed]; simpl;
    try (destruct (db_pool_close w); simpl);
    rewrite ?Hr; destruct xr as [[|]|er]; simpl;
    try (destruct (redis_pool_close w); simpl);
    rewrite <- ?app_assoc; simpl; do 2 eexists;
    (split; [reflexivity|]); simpl; (split; [reflexivity|]); split; reflexivity.
Qed.

(** C5. In a run of [run_bot] that has reached the client's run: with
    both resources enabled, the client's run, its logout and the two pool
    closes occur exactly as the collaborators' answers dictate, the database
    pool being closed as soon as the run has returned (or was interrupted
    and the logout has returned) and the redis pool right after the
    database pool's close has returned, never before it. Whatever is
    enabled, when the client's run ends by a [KeyboardInterrupt] the logout
    is called right after it, exactly once, and only pool closes follow. *)
Theorem run_bot_teardown_order (w : World) (bot : Bot) (lv : Logger -> Z) :
  let t := events (run_bot w bot) lv in
  let ops := filter is_lifecycle_op t in
  In BotStart t ->
  (enabled_flag bot "database" = Some true ->
   enabled_flag bot "redis" = Some true ->
   ops = BotStart ::
         (let closes :=
            DbPoolClose ::
            match db_pool_close w with None => [RedisPoolClose] | Some _ => [] end in
          match bot_start w with
          | None => closes
          | Some e =>
              if isinstance e KeyboardInterrupt then
                BotLogout :: match bot_logout w with None => closes | Some _ => [] end
              else []
          end))
  /\ (forall e,
        bot_start w = Some e -> isinstance e KeyboardInterrupt = true ->
        exists closes,
          ops = BotStart :: BotLogout :: closes
          /\ forallb is_pool_close closes = true
          /\ count_occ event_eq_dec t BotLogout = 1%nat).
Proof.
  intros t ops Hin. split.
  - intros Hdb Hre.
    destruct (run_bot_lifecycle w bot lv Hdb Hre) as [H | H]; [|exact H].
    exfalso. assert (Hops : In BotStart ops) by (apply filter_In; auto).
    unfold ops, t in Hops. rewrite H in Hops. exact Hops.
  - intros e Hs Hi.
    rewrite (count_occ_lifecycle t BotLogout eq_refl). fold ops.
    revert Hin. unfold ops, t, events. rewrite run_bot_split. unfold bind.
    destruct (startup_footprint w bot (initial lv)) as (pre & E & F).
    destruct (startup w bot (initial lv)) as [[[]|x] s1]; simpl in E.
    + intros _. destruct (run_and_close_interrupted w bot s1 e Hs Hi)
        as (tail & closes & Et & Eo & Fc & Hc).
      rewrite Et, E, filter_app, (filter_none _ _ F). simpl.
      exists closes. rewrite Eo in *. auto.
    + simpl. rewrite E. intros Hin. exfalso.
      rewrite forallb_forall in F. specialize (F _ Hin). discriminate.
Qed.

Lemma run_bot_teardown_order_witness :
  let t := events (run_bot (interrupted_world (inl sample_schema)) (sample_bot true true))
             (fun _ => NOTSET) in
  filter is_lifecycle_op t = [BotStart; BotLogout; DbPoolClose; RedisPoolClose]
  /\ exists closes,
       filter is_lifecycle_op t = BotStart :: BotLogout :: closes
       /\ forallb is_pool_close closes = true
       /\ count_occ event_eq_dec t BotLogout = 1%nat.
Proof.
  intros t.
  assert (Hin : In BotStart t) by (vm_compute; do 15 right; left; reflexivity).
  destruct (run_bot_teardown_order (interrupted_world (inl sample_schema))
              (sample_bot true true) (fun _ => NOTSET) Hin) as [Hboth Hint].
  split.
  - apply (Hboth eq_refl eq_refl).
  - apply (Hint (Exn KeyboardInterrupt "")); reflexivity.
Defined.

(** ** The properties on the sample inputs *)

Example run_bot_quiet_run :
  run_bot (quiet_world (inl sample_schema)) (sample_bot true true) (initial (fun _ => NOTSET))
  = (Ok tt,
     mkState (fun _ => NOTSET)
       [LogCall INFO "Creating database pool"; DbCreatePool;
        LogCall INFO "Created database pool successfully";
        LogCall INFO "Creating initial database tables";
        OpenSchema "./config/database.pgsql"; DbAcquire;
        DbExecute (txt "CREATE TABLE a(x int)"); DbExecute (txt "CREATE TABLE b(y int)");
        DbRelease; LogCall INFO "Creating redis pool"; RedisCreatePool;
        LogCall INFO "Created redis pool successfully";
        LogCall INFO "Loading extensions... "; LoadAllExtensions;
        LogCall INFO "Running bot"; BotStart;
        LogCall INFO "Closing database pool"; DbPoolClose;
        LogCall INFO "Closing redis pool"; RedisPoolClose;
        LogCall INFO "Closing asyncio loop"; LoopClose]).
Proof. reflexivity. Qed.

(** A failed start of the database pool ends the run at once. *)
Example run_bot_refused_run :
  run_bot refusing_world (sample_bot true true) (initial (fun _ => NOTSET))
  = (Raise (Exn Exception msg_db_refused),
     mkState (fun _ => NOTSET) [LogCall INFO "Creating database pool"; DbCreatePool]).
Proof. reflexivity. Qed.

Lemma set_default_log_levels_layering_witness :
  let run := set_default_log_levels (sample_bot true true) sample_args in
  let lv := fun _ : Logger => NOTSET in
  outcome run lv = Ok (mkBot (sample_config true true) logger "database" "redis")
  /\ final_levels run lv logger = DEBUG
  /\ final_levels run lv "database" = INFO
  /\ final_levels run lv "redis" = WARNING
  /\ final_levels run lv (getLogger "discord") = INFO
  /\ (forall l, ~ In l [logger; "database"; "redis"; getLogger "discord"] ->
        final_levels run lv l = lv l)
  /\ (forall r s, set_log_level r None s = (Ok tt, s)).
Proof.
  apply (set_default_log_levels_layering (sample_bot true true) sample_args
           (fun _ => NOTSET) "info" INFO DEBUG INFO WARNING INFO); try reflexivity.
  unfold logger, getLogger. repeat constructor; simpl; intuition discriminate.
Defined.

Lemma pool_creation_failure_witness :
  (events (start_database_pool refusing_world (sample_bot true true)) (fun _ => NOTSET)
   = [LogCall INFO "Creating database pool"; DbCreatePool]
   /\ outcome (start_database_pool refusing_world (sample_bot true true)) (fun _ => NOTSET)
      = Raise (Exn Exception msg_db_refused))
  /\
  (events (start_redis_pool refusing_world (sample_bot true true)) (fun _ => NOTSET)
   = [LogCall INFO "Creating redis pool"; RedisCreatePool]
   /\ outcome (start_redis_pool refusing_world (sample_bot true true)) (fun _ => NOTSET)
      = Raise (Exn ConnectionRefusedError msg_redis_refused)).
Proof.
  destruct (pool_creation_failure refusing_world (sample_bot true true) (fun _ => NOTSET)
              (Exn ConnectionRefusedError "Connection refused")) as (Hdb & Hredis & _).
  split.
  - destruct (Hdb eq_refl eq_refl) as (Ht & _ & Hrefused & _).
    split; [exact Ht | apply Hrefused; reflexivity].
  - destruct (Hredis eq_refl eq_refl) as (Ht & _ & Hrefused & _).
    split; [exact Ht | apply Hrefused; reflexivity].
Defined.

Lemma disabled_resource_skipped_witness :
  let w := quiet_world (inl sample_schema) in
  let lv := fun _ : Logger => NOTSET in
  (start_database_pool w (sample_bot false true) (initial lv)
   = (Ok tt, mkState lv [LogCall INFO "Database connection has been disabled"])
   /\ forallb (fun e => negb (is_db_op e))
        (events (run_bot w (sample_bot false true)) lv) = true)
  /\
  (start_redis_pool w (sample_bot true false) (initial lv)
   = (Ok tt, mkState lv [LogCall INFO "Redis connection has been disabled"])
   /\ forallb (fun e => negb (is_redis_op e))
        (events (run_bot w (sample_bot true false)) lv) = true).
Proof.
  destruct disabled_resource_skipped as [Hdb Hredis].
  split.
  - apply (Hdb (quiet_world (inl sample_schema)) (sample_bot false true)). reflexivity.
  - apply (Hredis (quiet_world (inl sample_schema)) (sample_bot true false)). reflexivity.
Defined.


(** * Further properties of the runner *)

(** ** The shard range *)

Lemma range_list_In (lo hi z : Z) : In z (range_list lo hi) <-> lo <= z < hi.
Proof.
  unfold range_list. rewrite in_map_iff. split.
  - intros (i & <- & Hi). apply in_seq in Hi. lia.
  - intros H. exists (Z.to_nat (z - lo)). split; [lia|]. apply in_seq. lia.
Qed.

Lemma range_list_length (lo hi : Z) : List.length (range_list lo hi) = Z.to_nat (hi - lo).
Proof. unfold range_list. rewrite length_map, length_seq. reflexivity. Qed.

Lemma range_list_sorted (lo hi : Z) : StronglySorted Z.lt (range_list lo hi).
Proof.
  unfold range_list. generalize (Z.to_nat (hi - lo)) as n. intros n.
  assert (H : forall start, StronglySorted Z.lt
                (map (fun i => lo + Z.of_nat i) (seq start n))).
  { induction n as [|n IH]; intros start; simpl; constructor; [apply IH|].
    apply Forall_forall. intros z Hz. apply in_map_iff in Hz.
    destruct Hz as (i & <- & Hi). apply in_seq in Hi. lia. }
  apply H.
Qed.

Lemma default_shards_given (args : Namespace) (c : Z) :
  ns_shardcount args = Some c -> default_shards args = args.
Proof. intros H. unfold default_shards. rewrite H. reflexivity. Qed.

(** X1. A shard count that is given has no influence on the outcome: with
    any other count in its place the call returns the same shard list, or
    raises the same error; the count is not compared with the bounds. When
    the call returns, the namespace is the one it was given and the list
    holds exactly the integers from [min] to [max]. *)
Theorem validate_sharding_information_ignores_count
    (args : Namespace) (c c' : Z) (s : state) :
  ns_shardcount args = Some c ->
  match validate_sharding_information args s,
        validate_sharding_information (with_shardcount args c') s with
  | (Ok (a, ids), _), (Ok (a', ids'), _) =>
      ids = ids' /\ a = args /\ a' = with_shardcount args c'
      /\ forall lo hi z, ns_min args = Some lo -> ns_max args = Some hi ->
                         (In z ids <-> lo <= z <= hi)
  | (Raise e, _), (Raise e', _) => e = e'
  | _, _ => False
  end.
Proof.
  intros Hc.
  pose proof (validate_sharding_information_cases args s) as H. simpl in H.
  pose proof (validate_sharding_information_cases (with_shardcount args c') s) as H'.
  simpl in H'.
  rewrite (default_shards_given args c Hc) in H.
  rewrite (default_shards_given (with_shardcount args c') c' eq_refl) in H'.
  simpl in H'.
  destruct (ns_min args) as [lo|], (ns_max args) as [hi|]; rewrite H, H'; try reflexivity.
  destruct (sys_maxsize <? hi + 1 - lo); [reflexivity|].
  split; [reflexivity|]. split; [reflexivity|]. split; [reflexivity|].
  intros lo0 hi0 z E1 E2. injection E1 as <-. injection E2 as <-.
  rewrite range_list_In. lia.
Qed.

Lemma validate_sharding_information_ignores_count_witness :
  match validate_sharding_information
          (mkNamespace (Some 2) (Some 4) (Some 2) (Some "INFO") None None None None)
          (initial (fun _ => NOTSET)),
        validate_sharding_information
          (with_shardcount
             (mkNamespace (Some 2) (Some 4) (Some 2) (Some "INFO") None None None None) 9)
          (initial (fun _ => NOTSET)) with
  | (Ok (a, ids), _), (Ok (a', ids'), _) =>
      ids = ids'
      /\ a = mkNamespace (Some 2) (Some 4) (Some 2) (Some "INFO") None None None None
      /\ a' = with_shardcount
                (mkNamespace (Some 2) (Some 4) (Some 2) (Some "INFO") None None None None) 9
      /\ forall lo hi z, Some 2 = Some lo -> Some 4 = Some hi ->
                         (In z ids <-> lo <= z <= hi)
  | (Raise e, _), (Raise e', _) => e = e'
  | _, _ => False
  end.
Proof.
  apply (validate_sharding_information_ignores_count
           (mkNamespace (Some 2) (Some 4) (Some 2) (Some "INFO") None None None None)
           2 9 (initial (fun _ => NOTSET))).
  reflexivity.
Defined.

Lemma validate_sharding_information_result
    (args args' : Namespace) (ids : list Z) (s s' : state) :
  validate_sharding_information args s = (Ok (args', ids), s') ->
  exists c lo hi,
    ns_shardcount args' = Some c /\ ns_min args' = Some lo /\ ns_max args' = Some hi
    /\ ids = range_list lo (hi + 1)
    /\ StronglySorted Z.lt ids
    /\ (ids = [] <-> hi < lo)
    /\ s' = s
    /\ (sys_maxsize <? hi + 1 - lo) = false.
Proof.
  intros H.
  pose proof (validate_sharding_information_cases args s) as Hc. simpl in Hc.
  pose proof (default_shards_count args) as Hn.
  destruct (ns_min (default_shards args)) as [lo|] eqn:Elo;
    destruct (ns_max (default_shards args)) as [hi|] eqn:Ehi;
    rewrite Hc in H; try discriminate.
  destruct (sys_maxsize <? hi + 1 - lo) eqn:Eo; [discriminate|].
  injection H as <- <- <-.
  destruct (ns_shardcount (default_shards args)) as [c|]; [|discriminate].
  exists c, lo, hi. repeat split; auto.
  - apply range_list_sorted.
  - intros E. pose proof (range_list_length lo (hi + 1)) as L. rewrite E in L.
    simpl in L. lia.
  - intros Hlt. pose proof (range_list_length lo (hi + 1)) as L.
    replace (Z.to_nat (hi + 1 - lo)) with 0%nat in L by lia.
    destruct (range_list lo (hi + 1)); [reflexivity | discriminate].
Qed.

(** X2. Whenever the call returns, the namespace it leaves has a count and
    both bounds, the list is the strictly ascending range between the
    bounds, and it is empty exactly when [max] is below [min]. *)
Theorem validate_sharding_information_returns
    (args args' : Namespace) (ids : list Z) (s s' : state) :
  validate_sharding_information args s = (Ok (args', ids), s') ->
  exists c lo hi,
    ns_shardcount args' = Some c /\ ns_min args' = Some lo /\ ns_max args' = Some hi
    /\ ids = range_list lo (hi + 1)
    /\ StronglySorted Z.lt ids
    /\ (ids = [] <-> hi < lo)
    /\ s' = s.
Proof.
  intros H.
  destruct (validate_sharding_information_result _ _ _ _ _ H)
    as (c & lo & hi & H1 & H2 & H3 & H4 & H5 & H6 & H7 & _).
  exists c, lo, hi. auto 10.
Qed.

Lemma validate_sharding_information_returns_witness :
  exists c lo hi,
    Some 3 = Some c /\ Some 5 = Some lo /\ Some 4 = Some hi
    /\ @nil Z = range_list lo (hi + 1)
    /\ StronglySorted Z.lt (@nil Z)
    /\ (@nil Z = [] <-> hi < lo)
    /\ initial (fun _ => NOTSET) = initial (fun _ => NOTSET).
Proof.
  apply (validate_sharding_information_returns
           (mkNamespace (Some 5) (Some 4) (Some 3) (Some "INFO") None None None None)
           (mkNamespace (Some 5) (Some 4) (Some 3) (Some "INFO") None None None None)
           [] (initial (fun _ => NOTSET)) (initial (fun _ => NOTSET))).
  reflexivity.
Defined.

(** X3. For every namespace the call never logs, never changes a log
    level and never leaves through [exit]: neither of the two tests that
    lead to [exit(1)] can hold when it is reached, since a namespace for
    which the test of line 120 would hold has made line 116 raise
    [TypeError] before. *)
Theorem validate_sharding_information_never_exits (args : Namespace) (s : state) :
  snd (validate_sharding_information args s) = s
  /\ (forall code, fst (validate_sharding_information args s) <> Raise (Exit code))
  /\ range_without_count (default_shards args) = false
  /\ (count_without_range (default_shards args) = true ->
      exists msg, fst (validate_sharding_information args s) = Raise (Exn TypeError msg)).
Proof.
  pose proof (validate_sharding_information_cases args s) as H. simpl in H.
  split; [|split; [|split]].
  - apply validate_sharding_information_silent.
  - apply validate_sharding_information_silent.
  - unfold range_without_count. rewrite default_shards_count. reflexivity.
  - unfold count_without_range.
    destruct (ns_min (default_shards args)), (ns_max (default_shards args));
      rewrite H; simpl; rewrite ?andb_false_r; intros; try discriminate; eauto.
Qed.

(** X5. Validation is idempotent: validating the namespace left by a call
    that returned gives the same namespace and the same list again. *)
Theorem validate_sharding_information_idempotent
    (args args' : Namespace) (ids : list Z) (s s' : state) :
  validate_sharding_information args s = (Ok (args', ids), s') ->
  validate_sharding_information args' s' = (Ok (args', ids), s').
Proof.
  intros H.
  destruct (validate_sharding_information_result _ _ _ _ _ H)
    as (c & lo & hi & Hc & Hlo & Hhi & Hids & _ & _ & -> & Ho).
  pose proof (validate_sharding_information_cases args' s) as H'. simpl in H'.
  rewrite (default_shards_given args' c Hc) in H'. rewrite Hlo, Hhi, Ho in H'.
  rewrite Hids. exact H'.
Qed.

Lemma validate_sharding_information_idempotent_witness :
  validate_sharding_information
    (mkNamespace (Some 0) (Some 0) (Some 1) (Some "INFO") None None None None)
    (initial (fun _ => NOTSET))
  = (Ok (mkNamespace (Some 0) (Some 0) (Some 1) (Some "INFO") None None None None, [0]),
     initial (fun _ => NOTSET)).
Proof.
  apply (validate_sharding_information_idempotent
           (mkNamespace (Some 7) None None (Some "INFO") None None None None)
           (mkNamespace (Some 0) (Some 0) (Some 1) (Some "INFO") None None None None)
           [0] (initial (fun _ => NOTSET)) (initial (fun _ => NOTSET))).
  reflexivity.
Defined.

Lemma validate_sharding_information_partial_range_witness :
  exists msg,
    validate_sharding_information
      (mkNamespace None None (Some 4) (Some "INFO") None None None None)
      (initial (fun _ => NOTSET))
    = (Raise (Exn TypeError msg), initial (fun _ => NOTSET)).
Proof.
  apply (validate_sharding_information_partial_range
           (mkNamespace None None (Some 4) (Some "INFO") None None None None)
           (initial (fun _ => NOTSET))).
  - discriminate.
  - left. reflexivity.
Defined.

(** ** Level strings *)

Lemma upper_char_idempotent (c : ascii) : upper_char (upper_char c) = upper_char c.
Proof. destruct c as [[] [] [] [] [] [] [] []]; reflexivity. Qed.

Lemma upper_idempotent (s : string) : upper (upper s) = upper s.
Proof.
  induction s as [|c r IH]; simpl; [reflexivity|].
  rewrite upper_char_idempotent, IH. reflexivity.
Qed.

(** The integers found in the module under upper-case names are the
    entries of the module's own table of level names. *)
Lemma level_named_table (name : string) :
  level_named name = dict_get nameToLevel (upper name).
Proof.
  unfold level_named, getattr_logging, logging_namespace, nameToLevel.
  generalize (upper name) as u. intros u. simpl.
  repeat match goal with
  | |- context [String.eqb u ?k] => destruct (String.eqb u k); simpl
  end; reflexivity.
Qed.

(** X6. Whatever [set_log_level] raises, for any logger and any level
    string, it raises before storing: no log level has changed and nothing
    was recorded. *)
Theorem set_log_level_atomic (r : logger_ref) (loglevel : option string)
    (s : state) (e : exn) :
  fst (set_log_level r loglevel s) = Raise e ->
  snd (set_log_level r loglevel s) = s.
Proof.
  intros H. destruct (set_log_level r loglevel s) as [res s'] eqn:E.
  simpl in *. subst res. eapply set_log_level_raise_unchanged. exact E.
Qed.

Lemma set_log_level_atomic_witness :
  snd (set_log_level (LoggerName "discord") (Some "verbose") (initial (fun _ => WARNING)))
  = initial (fun _ => WARNING).
Proof.
  apply (set_log_level_atomic (LoggerName "discord") (Some "verbose")
           (initial (fun _ => WARNING))
           (Exn ValueError "The log level VERBOSE wasn't found in the logging module")).
  reflexivity.
Defined.

(** X7. An ASCII level string whose upper-case form is no attribute of
    the [logging] module is refused with a [ValueError] whose message
    contains the string in upper case; the state is untouched. *)
Theorem set_log_level_unknown (r : logger_ref) (loglevel : string) (s : state) :
  is_ascii loglevel = true ->
  getattr_logging (upper loglevel) = None ->
  exists msg,
    set_log_level r (Some loglevel) s = (Raise (Exn ValueError msg), s)
    /\ contains (upper loglevel) msg = true.
Proof.
  intros _ H. exists (msg_level_not_found loglevel). split.
  - apply set_log_level_not_found, H.
  - apply msg_level_not_found_names.
Qed.

Lemma set_log_level_unknown_witness :
  exists msg,
    set_log_level (LoggerObject logger) (Some "verbose") (initial (fun _ => WARNING))
    = (Raise (Exn ValueError msg), initial (fun _ => WARNING))
    /\ contains (upper "verbose") msg = true.
Proof.
  apply (set_log_level_unknown (LoggerObject logger) "verbose"); reflexivity.
Defined.

(** X8. Level strings are read without regard to case: two strings with
    the same upper-case form behave alike in every respect, and a string
    behaves like its upper-case form. *)
Theorem set_log_level_case_insensitive (r : logger_ref) (a b : string) (s : state) :
  upper a = upper b ->
  set_log_level r (Some a) s = set_log_level r (Some b) s
  /\ set_log_level r (Some (upper a)) s = set_log_level r (Some a) s.
Proof.
  intros H. unfold set_log_level, msg_level_not_found.
  rewrite upper_idempotent, H. split; reflexivity.
Qed.

Lemma set_log_level_case_insensitive_witness :
  set_log_level (LoggerObject logger) (Some "Debug") (initial (fun _ => WARNING))
  = set_log_level (LoggerObject logger) (Some "dEBUG") (initial (fun _ => WARNING))
  /\ set_log_level (LoggerObject logger) (Some (upper "Debug")) (initial (fun _ => WARNING))
     = set_log_level (LoggerObject logger) (Some "Debug") (initial (fun _ => WARNING)).
Proof.
  apply (set_log_level_case_insensitive (LoggerObject logger) "Debug" "dEBUG").
  reflexivity.
Defined.

Lemma set_log_level_verdict (r : logger_ref) (loglevel : string) (s : state) :
  match dict_get nameToLevel (upper loglevel) with
  | Some z =>
      set_log_level r (Some loglevel) s
      = (Ok tt,
         mkState (fun l => if String.eqb l (resolve r) then z else levels s l) (trace s))
  | None => exists e, set_log_level r (Some loglevel) s = (Raise e, s)
  end.
Proof.
  rewrite <- level_named_table.
  destruct (level_named loglevel) as [z|] eqn:E.
  - rewrite (set_log_level_named r loglevel z s E). reflexivity.
  - destruct (set_log_level r (Some loglevel) s) as [[[]|e] s'] eqn:Es.
    + exfalso. revert E Es.
      unfold level_named, set_log_level, setLevel, checkLevel, bind, store_level, raise, ret,
        getattr_logging, logging_namespace.
      generalize (upper loglevel) as u. intros u. simpl.
      repeat match goal with
      | |- context [String.eqb u ?k] => destruct (String.eqb u k); simpl
      end; discriminate.
    + pose proof (set_log_level_raise_unchanged _ _ _ _ _ Es). subst. eauto.
Qed.

(** X9. Among ASCII strings [set_log_level] accepts exactly the level
    names of the [logging] module, in any case: for such a name it stores
    the module's value in the one logger it was given and touches no other
    logger and no trace; for any other ASCII string it raises and changes
    nothing. *)
Theorem set_log_level_accepts_level_names (r : logger_ref) (loglevel : string) (s : state) :
  is_ascii loglevel = true ->
  match dict_get nameToLevel (upper loglevel) with
  | Some z =>
      set_log_level r (Some loglevel) s
      = (Ok tt,
         mkState (fun l => if String.eqb l (resolve r) then z else levels s l) (trace s))
  | None => exists e, set_log_level r (Some loglevel) s = (Raise e, s)
  end.
Proof. intros _. apply set_log_level_verdict. Qed.

Lemma set_log_level_accepts_level_names_witness :
  set_log_level (LoggerName "discord") (Some "Warn") (initial (fun _ => NOTSET))
  = (Ok tt,
     mkState (fun l => if String.eqb l (resolve (LoggerName "discord")) then WARNING
                       else NOTSET) [])
  /\ exists e,
       set_log_level (LoggerName "discord") (Some "trace") (initial (fun _ => NOTSET))
       = (Raise e, initial (fun _ => NOTSET)).
Proof.
  split.
  - apply (set_log_level_accepts_level_names (LoggerName "discord") "Warn"
             (initial (fun _ => NOTSET))). reflexivity.
  - apply (set_log_level_accepts_level_names (LoggerName "discord") "trace"
             (initial (fun _ => NOTSET))). reflexivity.
Defined.

Lemma set_log_level_refused (r : logger_ref) (loglevel : string) (s : state) :
  level_named loglevel = None ->
  exists e, set_log_level r (Some loglevel) s = (Raise e, s).
Proof.
  intros H. pose proof (set_log_level_verdict r loglevel s) as V.
  rewrite <- level_named_table, H in V. exact V.
Qed.

(** ** Failures of [set_default_log_levels] *)

(** X10. An ASCII global level that names no level makes
    [set_default_log_levels] raise at its first logger: [logging.basicConfig]
    has been called, and no log level has changed. *)
Theorem set_default_log_levels_bad_global
    (bot : Bot) (args : Namespace) (s : state) (g : string) :
  ns_loglevel args = Some g -> is_ascii g = true -> level_named g = None ->
  exists e,
    set_default_log_levels bot args s
    = (Raise e, mkState (levels s) (trace s ++ [BasicConfig])).
Proof.
  intros Hg _ Hn. unfold set_default_log_levels, bind, emit. simpl. rewrite Hg.
  destruct (set_log_level_refused (LoggerObject logger) g
              (mkState (levels s) (trace s ++ [BasicConfig])) Hn) as [e ->].
  eauto.
Qed.

Lemma set_default_log_levels_bad_global_witness :
  exists e,
    set_default_log_levels (sample_bot true true)
      (mkNamespace None None None (Some "loud") None None None None)
      (initial (fun _ => WARNING))
    = (Raise e, mkState (fun _ => WARNING) [BasicConfig]).
Proof.
  apply (set_default_log_levels_bad_global (sample_bot true true)
           (mkNamespace None None None (Some "loud") None None None None)
           (initial (fun _ => WARNING)) "loud"); reflexivity.
Defined.

(** X11. The call is not undone when an override is refused: with a valid
    global level [G] and an ASCII override for the bot's channel that names
    no level, the call raises after the global pass, leaving all four
    loggers at [G] and every other logger as it was. *)
Theorem set_default_log_levels_bad_override
    (bot : Bot) (args : Namespace) (s : state) (g o : string) (G : Z) :
  ns_loglevel args = Some g -> level_named g = Some G ->
  ns_loglevel_bot args = Some o -> is_ascii o = true -> level_named o = None ->
  exists e s',
    set_default_log_levels bot args s = (Raise e, s')
    /\ trace s' = trace s ++ [BasicConfig]
    /\ (forall l, In l [logger; database_logger bot; redis_logger bot; getLogger "discord"] ->
          levels s' l = G)
    /\ (forall l, ~ In l [logger; database_logger bot; redis_logger bot; getLogger "discord"] ->
          levels s' l = levels s l).
Proof.
  intros Hg HG Ho _ Hn. unfold set_default_log_levels, bind, emit. simpl. rewrite Hg, Ho.
  repeat (rewrite (fun r s => set_log_level_named r g G s HG);
          unfold store_level; cbv beta iota).
  match goal with
  | |- context [set_log_level ?r (Some o) ?st] =>
      destruct (set_log_level_refused r o st Hn) as [e ->]
  end.
  do 2 eexists. split; [reflexivity|]. unfold resolve, getLogger, logger. simpl.
  split; [reflexivity|]. split.
  - intros l [<- | [<- | [<- | [<- | []]]]]; rewrite ?String.eqb_refl;
      repeat match goal with
      | |- context [String.eqb ?a ?b] => destruct (String.eqb a b)
      end; reflexivity.
  - intros l Hl.
    repeat match goal with
    | |- context [String.eqb ?a ?b] =>
        let E := fresh "E" in
        destruct (String.eqb_spec a b) as [E|E]; [exfalso; apply Hl; rewrite E; tauto|]
    end. reflexivity.
Qed.

Lemma set_default_log_levels_bad_override_witness :
  exists e s',
    set_default_log_levels (sample_bot true true)
      (mkNamespace None None None (Some "info") (Some "loud") None None None)
      (initial (fun _ => WARNING))
    = (Raise e, s')
    /\ trace s' = trace (initial (fun _ => WARNING)) ++ [BasicConfig]
    /\ (forall l, In l [logger; "database"; "redis"; getLogger "discord"] ->
          levels s' l = INFO)
    /\ (forall l, ~ In l [logger; "database"; "redis"; getLogger "discord"] ->
          levels s' l = WARNING).
Proof.
  apply (set_default_log_levels_bad_override (sample_bot true true)
           (mkNamespace None None None (Some "info") (Some "loud") None None None)
           (initial (fun _ => WARNING)) "info" "loud" INFO); reflexivity.
Defined.

(** ** Failures of the schema bootstrap *)

Lemma for_each_run_statement_fails (w : World) (l : list text) :
  forall (pre : list text) (st : text) (post : list text) (e : exn) (s : state),
    map strip (filter is_statement l) = pre ++ st :: post ->
    (forall x, In x pre -> db_execute w x = None) ->
    db_execute w st = Some e ->
    for_each l (run_statement w) s
    = (Raise e, mkState (levels s) (trace s ++ map DbExecute pre ++ [DbExecute st])).
Proof.
  induction l as [|i l IH]; intros pre st post e s Hsplit Hpre Hst; simpl in *.
  - destruct pre; discriminate.
  - unfold bind. unfold run_statement at 1. fold (is_statement i).
    destruct (is_statement i) eqn:Ei; simpl in *.
    + unfold call, bind, emit. simpl. destruct pre as [|p pre]; simpl in *.
      * injection Hsplit as -> _. rewrite Hst. reflexivity.
      * injection Hsplit as -> Hrest. rewrite (Hpre p) by auto. simpl.
        rewrite (IH pre st post e _ Hrest) by auto. simpl.
        rewrite <- app_assoc. reflexivity.
    + eapply IH; eauto.
Qed.

Lemma create_initial_database_fails_at
    (w : World) (bot : Bot) (s : state) (data : text)
    (pre : list text) (st : text) (post : list text) (e : exn) :
  schema_file w = inl data ->
  db_acquire w = None ->
  statements data = pre ++ st :: post ->
  (forall x, In x pre -> db_execute w x = None) ->
  db_execute w st = Some e ->
  create_initial_database w bot s
  = (Raise e,
     mkState (levels s)
       (trace s ++ [OpenSchema schema_path; DbAcquire]
                ++ map DbExecute pre ++ [DbExecute st; DbRelease])).
Proof.
  intros Hf Ha Hsplit Hpre Hst.
  unfold create_initial_database, bind, try_except, read_schema, bind, emit.
  simpl. rewrite Hf. simpl.
  unfold with_database, call, bind, emit. rewrite Ha. simpl.
  rewrite (for_each_run_statement_fails w (split (code ";") data) pre st post e _ Hsplit Hpre Hst).
  simpl. rewrite <- !app_assoc. reflexivity.
Qed.

(** X12. When a statement of the schema raises, the statements before it
    have been executed in order, those after it are not tried, the connection
    is given back, and the exception leaves [create_initial_database] as it
    is: the call neither returns [False] nor goes on. *)
Theorem create_initial_database_statement_fails
    (w : World) (bot : Bot) (s : state) (data : text)
    (pre : list text) (st : text) (post : list text) (e : exn) :
  schema_file w = inl data ->
  db_acquire w = None ->
  statements data = pre ++ st :: post ->
  (forall x, In x pre -> db_execute w x = None) ->
  db_execute w st = Some e ->
  create_initial_database w bot s
  = (Raise e,
     mkState (levels s)
       (trace s ++ [OpenSchema schema_path; DbAcquire]
                ++ map DbExecute pre ++ [DbExecute st; DbRelease])).
Proof. apply create_initial_database_fails_at. Qed.

Lemma create_initial_database_statement_fails_witness :
  create_initial_database
    (failing_world (inl (txt "CREATE TABLE a(x int); DROP b; CREATE TABLE c(z int);"))
       (txt "DROP b") (Exn ValueError "no such table"))
    (sample_bot true true) (initial (fun _ => NOTSET))
  = (Raise (Exn ValueError "no such table"),
     mkState (fun _ => NOTSET)
       ([] ++ [OpenSchema schema_path; DbAcquire]
           ++ map DbExecute [txt "CREATE TABLE a(x int)"] ++ [DbExecute (txt "DROP b"); DbRelease])).
Proof.
  apply (create_initial_database_statement_fails
           (failing_world (inl (txt "CREATE TABLE a(x int); DROP b; CREATE TABLE c(z int);"))
              (txt "DROP b") (Exn ValueError "no such table"))
           (sample_bot true true) (initial (fun _ => NOTSET))
           (txt "CREATE TABLE a(x int); DROP b; CREATE TABLE c(z int);")
           [txt "CREATE TABLE a(x int)"] (txt "DROP b") [txt "CREATE TABLE c(z int)"]);
    try reflexivity.
  intros x [<- | []]. reflexivity.
Defined.

(** X13. When no connection can be acquired the schema file has been read
    but nothing is executed and nothing is released, and the exception of
    the acquisition leaves the call. *)
Theorem create_initial_database_acquire_fails
    (w : World) (bot : Bot) (s : state) (data : text) (e : exn) :
  schema_file w = inl data ->
  db_acquire w = Some e ->
  create_initial_database w bot s
  = (Raise e, mkState (levels s) (trace s ++ [OpenSchema schema_path; DbAcquire])).
Proof.
  intros Hf Ha.
  unfold create_initial_database, bind, try_except, read_schema, bind, emit.
  simpl. rewrite Hf. simpl.
  unfold with_database, call, bind, emit. rewrite Ha. simpl.
  rewrite <- app_assoc. reflexivity.
Qed.

Lemma create_initial_database_acquire_fails_witness :
  create_initial_database
    (mkWorld false (inl sample_schema) None (Some (Exn OSError "pool is closed"))
       (fun _ => None) None None None None None None)
    (sample_bot true true) (initial (fun _ => NOTSET))
  = (Raise (Exn OSError "pool is closed"),
     mkState (fun _ => NOTSET) ([] ++ [OpenSchema schema_path; DbAcquire])).
Proof.
  apply (create_initial_database_acquire_fails
           (mkWorld false (inl sample_schema) None (Some (Exn OSError "pool is closed"))
              (fun _ => None) None None None None None None)
           (sample_bot true true) (initial (fun _ => NOTSET)) sample_schema);
    reflexivity.
Defined.

(** X14. Only instances of [Exception] count as an unreadable file: what
    is raised while reading and is not one (an interruption, an exit) is not
    turned into [False] but leaves the call. *)
Theorem create_initial_database_read_interrupted
    (w : World) (bot : Bot) (s : state) (e : exn) :
  schema_file w = inr e ->
  isinstance e Exception = false ->
  create_initial_database w bot s
  = (Raise e, mkState (levels s) (trace s ++ [OpenSchema schema_path])).
Proof.
  intros Hf He.
  unfold create_initial_database, bind, try_except, read_schema, bind, emit.
  simpl. rewrite Hf. simpl. rewrite He. reflexivity.
Qed.

Lemma create_initial_database_read_interrupted_witness :
  create_initial_database (quiet_world (inr (Exn KeyboardInterrupt "")))
    (sample_bot true true) (initial (fun _ => NOTSET))
  = (Raise (Exn KeyboardInterrupt ""),
     mkState (fun _ => NOTSET) ([] ++ [OpenSchema schema_path])).
Proof.
  apply (create_initial_database_read_interrupted
           (quiet_world (inr (Exn KeyboardInterrupt "")))); reflexivity.
Defined.

(** ** The shape of a statement *)

Lemma split_has_char (sep : N) (s p : text) :
  In p (split sep s) -> has_char sep p = false.
Proof.
  revert p. induction s as [|c r IH]; intros p; simpl.
  - intros [<- | []]. reflexivity.
  - destruct (N.eqb c sep) eqn:Ec.
    + intros [<- | H]; [reflexivity | auto].
    + destruct (split sep r) as [|h t].
      * intros [<- | []]. simpl. rewrite Ec. reflexivity.
      * intros [<- | H].
        -- simpl. rewrite Ec. apply IH. left. reflexivity.
        -- apply IH. right. exact H.
Qed.

Lemma lstrip_has_char (x : N) (s : text) :
  has_char x s = false -> has_char x (lstrip s) = false.
Proof.
  induction s as [|c r IH]; simpl; [auto|].
  intros H. apply orb_false_iff in H. destruct H as [Hc Hr].
  destruct (isspace c); [auto|]. simpl. rewrite Hc, Hr. reflexivity.
Qed.

Lemma rstrip_has_char (x : N) (s : text) :
  has_char x s = false -> has_char x (rstrip s) = false.
Proof.
  induction s as [|c r IH]; simpl; [auto|].
  intros H. apply orb_false_iff in H. destruct H as [Hc Hr].
  destruct (isspace c && is_empty (rstrip r)); [reflexivity|].
  simpl. rewrite Hc. auto.
Qed.

Lemma rstrip_idempotent (s : text) : rstrip (rstrip s) = rstrip s.
Proof.
  induction s as [|c r IH]; simpl; [reflexivity|].
  destruct (isspace c && is_empty (rstrip r)) eqn:E; [reflexivity|].
  simpl. rewrite IH, E. reflexivity.
Qed.

Lemma lstrip_head_nonspace (s : text) : head_nonspace (lstrip s) = true.
Proof.
  induction s as [|c r IH]; simpl; [reflexivity|].
  destruct (isspace c) eqn:E; [exact IH|]. simpl. rewrite E. reflexivity.
Qed.

Lemma rstrip_head_nonspace (s : text) :
  head_nonspace s = true -> head_nonspace (rstrip s) = true.
Proof.
  destruct s as [|c r]; simpl; [auto|].
  intros H. apply negb_true_iff in H. rewrite H. simpl. rewrite H. reflexivity.
Qed.

Lemma lstrip_fixed (s : text) : head_nonspace s = true -> lstrip s = s.
Proof.
  destruct s as [|c r]; simpl; [auto|].
  intros H. apply negb_true_iff in H. rewrite H. reflexivity.
Qed.

Lemma strip_idempotent (s : text) : strip (strip s) = strip s.
Proof.
  unfold strip.
  rewrite (lstrip_fixed (rstrip (lstrip s)))
    by apply rstrip_head_nonspace, lstrip_head_nonspace.
  apply rstrip_idempotent.
Qed.

Lemma statements_are_clean (data st : text) :
  In st (statements data) ->
  st <> [] /\ strip st = st /\ has_char (code ";") st = false.
Proof.
  unfold statements. intros H. apply in_map_iff in H.
  destruct H as (i & <- & Hi). apply filter_In in Hi. destruct Hi as [Hin Hs].
  unfold is_statement in Hs. apply andb_true_iff in Hs. destruct Hs as [_ Hne].
  split; [|split].
  - intros E. rewrite E in Hne. discriminate.
  - apply strip_idempotent.
  - unfold strip. apply rstrip_has_char, lstrip_has_char.
    eapply split_has_char. exact Hin.
Qed.

(** Whatever the database answers, the loop only executes, and only
    kept fragments, stripped. *)
Lemma for_each_run_statement_executes (w : World) (l : list text) (s : state) :
  exists t,
    trace (snd (for_each l (run_statement w) s)) = trace s ++ t
    /\ forall e, In e t ->
         exists st, e = DbExecute st /\ In st (map strip (filter is_statement l)).
Proof.
  revert s. induction l as [|i l IH]; intros s; simpl.
  - exists []. rewrite app_nil_r. split; [reflexivity | intros e []].
  - unfold bind. unfold run_statement at 1. fold (is_statement i).
    destruct (is_statement i) eqn:Ei; simpl.
    + unfold call, bind, emit. simpl.
      destruct (db_execute w (strip i)) as [x|]; simpl.
      * exists [DbExecute (strip i)]. split; [reflexivity|].
        intros e [<- | []]. eexists. split; [reflexivity | left; reflexivity].
      * destruct (IH (mkState (levels s) (trace s ++ [DbExecute (strip i)])))
          as (t & E & H).
        exists (DbExecute (strip i) :: t). rewrite E. simpl. rewrite <- app_assoc.
        split; [reflexivity|].
        intros e [<- | He].
        -- eexists. split; [reflexivity | left; reflexivity].
        -- destruct (H e He) as (st & -> & Hst). eexists. split; [reflexivity | right; exact Hst].
    + apply IH.
Qed.

Lemma create_initial_database_executes (w : World) (bot : Bot) (s : state) :
  exists t,
    trace (snd (create_initial_database w bot s)) = trace s ++ t
    /\ forall st, In (DbExecute st) t ->
         exists data, schema_file w = inl data /\ In st (statements data).
Proof.
  unfold create_initial_database, bind, try_except, read_schema, bind, emit. simpl.
  destruct (schema_file w) as [data|e]; simpl.
  - unfold with_database, call, bind, emit. simpl.
    destruct (db_acquire w); simpl.
    + eexists. rewrite <- app_assoc. split; [reflexivity|].
      simpl. intros st [H | [H | []]]; discriminate.
    + destruct (for_each_run_statement_executes w (split (code ";") data)
                  (mkState (levels s) ((trace s ++ [OpenSchema schema_path]) ++ [DbAcquire])))
        as (t & E & H).
      change (code ";") with 59%N in *.
      destruct (for_each (split 59 data) (run_statement w) _) as [[[]|e] s'];
        simpl in *; rewrite E; rewrite <- !app_assoc; simpl;
        (eexists; split; [reflexivity|]);
        (intros st [Hst | [Hst | Hst]]; try discriminate;
         apply in_app_or in Hst; destruct Hst as [Hst | [Hst | []]]; try discriminate;
         destruct (H _ Hst) as (st' & Est & Hin); injection Est as ->;
         exists data; split; [reflexivity | exact Hin]).
  - destruct (isinstance e Exception); simpl;
      (eexists; split; [reflexivity|]); intros st [H | []]; discriminate.
Qed.

(** X15. Whatever the collaborators answer, every statement that
    [create_initial_database] hands to the database is a fragment of the
    schema file between two [;], is non-empty, is stripped (stripping it
    again changes nothing) and contains no [;]. *)
Theorem executed_statements_shape
    (w : World) (bot : Bot) (lv : Logger -> Z) (st : text) :
  In (DbExecute st) (events (create_initial_database w bot) lv) ->
  st <> [] /\ strip st = st /\ has_char (code ";") st = false
  /\ exists data, schema_file w = inl data /\ In st (statements data).
Proof.
  unfold events. intros H.
  destruct (create_initial_database_executes w bot (initial lv)) as (t & E & Ht).
  rewrite E in H. simpl in H.
  destruct (Ht st H) as (data & Hf & Hin).
  destruct (statements_are_clean data st Hin) as (H1 & H2 & H3).
  eauto 10.
Qed.

Lemma executed_statements_shape_witness :
  txt "CREATE TABLE b(y int)" <> []
  /\ strip (txt "CREATE TABLE b(y int)") = txt "CREATE TABLE b(y int)"
  /\ has_char (code ";") (txt "CREATE TABLE b(y int)") = false
  /\ exists data,
       schema_file (quiet_world (inl sample_schema)) = inl data
       /\ In (txt "CREATE TABLE b(y int)") (statements data).
Proof.
  apply (executed_statements_shape (quiet_world (inl sample_schema))
           (sample_bot true true) (fun _ => NOTSET)).
  vm_compute. do 3 right. left. reflexivity.
Defined.

(** ** The starters beyond pool creation *)

Lemma enabled_missing (bot : Bot) (resource : string) (s : state) :
  enabled_flag bot resource = None ->
  exists k, (k = resource \/ k = "enabled")
            /\ enabled bot resource s = (Raise (Exn KeyError k), s).
Proof.
  unfold enabled_flag, enabled, getitem, bind.
  destruct (dict_get (config bot) resource) as [section|]; simpl.
  - destruct (dict_get section "enabled") as [flag|]; simpl; [discriminate|].
    intros _. exists "enabled". auto.
  - intros _. exists resource. auto.
Qed.

(** X16. When the config has no section for the resource, or the section
    has no [enabled] key, the starter raises the [KeyError] of the lookup
    itself, naming the missing key: nothing is logged, no pool is created,
    and the message asking for the resource's object in the config is not
    the one raised. *)
Theorem starter_missing_setting (w : World) (bot : Bot) (s : state) :
  (enabled_flag bot "database" = None ->
   exists k, (k = "database" \/ k = "enabled")
             /\ start_database_pool w bot s = (Raise (Exn KeyError k), s)
             /\ Exn KeyError k <> Exn Exception msg_db_key_error)
  /\
  (enabled_flag bot "redis" = None ->
   exists k, (k = "redis" \/ k = "enabled")
             /\ start_redis_pool w bot s = (Raise (Exn KeyError k), s)
             /\ Exn KeyError k <> Exn KeyError msg_redis_key_error).
Proof.
  split; intros H; destruct (enabled_missing bot _ s H) as (k & Hk & E);
    exists k; (split; [exact Hk|]); split.
  - unfold start_database_pool, bind. rewrite E. reflexivity.
  - discriminate.
  - unfold start_redis_pool, bind. rewrite E. reflexivity.
  - destruct Hk as [-> | ->]; discriminate.
Qed.

Lemma starter_missing_setting_witness :
  (exists k, (k = "database" \/ k = "enabled")
     /\ start_database_pool (quiet_world (inl sample_schema))
          (mkBot [("redis", [("host", PyStr "127.0.0.1")])] "bot" "database" "redis")
          (initial (fun _ => NOTSET))
        = (Raise (Exn KeyError k), initial (fun _ => NOTSET))
     /\ Exn KeyError k <> Exn Exception msg_db_key_error)
  /\
  (exists k, (k = "redis" \/ k = "enabled")
     /\ start_redis_pool (quiet_world (inl sample_schema))
          (mkBot [("redis", [("host", PyStr "127.0.0.1")])] "bot" "database" "redis")
          (initial (fun _ => NOTSET))
        = (Raise (Exn KeyError k), initial (fun _ => NOTSET))
     /\ Exn KeyError k <> Exn KeyError msg_redis_key_error).
Proof.
  destruct (starter_missing_setting (quiet_world (inl sample_schema))
              (mkBot [("redis", [("host", PyStr "127.0.0.1")])] "bot" "database" "redis")
              (initial (fun _ => NOTSET))) as [Hdb Hredis].
  split; [apply Hdb | apply Hredis]; reflexivity.
Defined.

Lemma not_exception_not_caught (e : exn) :
  isinstance e Exception = false ->
  isinstance e KeyError = false /\ isinstance e ConnectionRefusedError = false.
Proof. destruct e as [c msg|code]; [destruct c|]; simpl; intros H; auto; discriminate. Qed.

(** X18. What pool creation raises and is not an instance of [Exception]
    (an interruption, an exit) is not rewritten by either starter: it leaves
    the starter as it is, after the one call of the pool creation. *)
Theorem pool_creation_interrupted (w : World) (bot : Bot) (s : state) (e : exn) :
  isinstance e Exception = false ->
  (enabled_flag bot "database" = Some true -> db_create_pool w = Some e ->
   start_database_pool w bot s
   = (Raise e, mkState (levels s)
                 (trace s ++ [LogCall INFO "Creating database pool"; DbCreatePool])))
  /\
  (enabled_flag bot "redis" = Some true -> redis_create_pool w = Some e ->
   start_redis_pool w bot s
   = (Raise e, mkState (levels s)
                 (trace s ++ [LogCall INFO "Creating redis pool"; RedisCreatePool]))).
Proof.
  intros He. destruct (not_exception_not_caught e He) as [Hk Hr]. split; intros Hon Hc.
  - rewrite (start_database_pool_failure w bot s e Hon Hc). simpl.
    rewrite Hk, Hr, He. reflexivity.
  - rewrite (start_redis_pool_failure w bot s e Hon Hc). simpl.
    rewrite Hk, Hr, He. reflexivity.
Qed.

Lemma pool_creation_interrupted_witness :
  let w := mkWorld false (inl sample_schema) (Some (Exn KeyboardInterrupt "")) None
             (fun _ => None) (Some (Exn KeyboardInterrupt "")) None None None None None in
  start_database_pool w (sample_bot true true) (initial (fun _ => NOTSET))
  = (Raise (Exn KeyboardInterrupt ""),
     mkState (fun _ => NOTSET)
       ([] ++ [LogCall INFO "Creating database pool"; DbCreatePool]))
  /\
  start_redis_pool w (sample_bot true true) (initial (fun _ => NOTSET))
  = (Raise (Exn KeyboardInterrupt ""),
     mkState (fun _ => NOTSET)
       ([] ++ [LogCall INFO "Creating redis pool"; RedisCreatePool])).
Proof.
  intros w.
  destruct (pool_creation_interrupted w (sample_bot true true) (initial (fun _ => NOTSET))
              (Exn KeyboardInterrupt "") eq_refl) as [Hdb Hredis].
  split; [apply Hdb | apply Hredis]; reflexivity.
Defined.

Lemma start_database_pool_created (w : World) (bot : Bot) (s : state) :
  enabled_flag bot "database" = Some true ->
  db_create_pool w = None ->
  start_database_pool w bot s
  = (let after :=
       mkState (levels s)
         (trace s ++ [LogCall INFO "Creating database pool"; DbCreatePool;
                      LogCall INFO "Created database pool successfully";
                      LogCall INFO "Creating initial database tables"]) in
     match create_initial_database w bot after with
     | (Ok _, s') => (Ok tt, s')
     | (Raise e, s') => (Raise e, s')
     end).
Proof.
  intros Hon Hc. destruct (enabled_section _ _ _ Hon) as [section Hs].
  unfold start_database_pool, bind, try_except, getitem, call, logger_info, emit, bind.
  rewrite (enabled_run _ _ _ _ Hon), Hs, Hc. simpl.
  rewrite <- !app_assoc. simpl.
  destruct (create_initial_database w bot _) as [[b|e] s']; reflexivity.
Qed.

(** X17. An error of the schema bootstrap is outside the [try] of
    [start_database_pool]: when a statement raises, the starter raises that
    very exception, not one of its three pool-creation errors, and the pool
    it has created stays open. *)
Theorem start_database_pool_bootstrap_fails
    (w : World) (bot : Bot) (s : state) (data : text)
    (pre : list text) (st : text) (post : list text) (e : exn) :
  enabled_flag bot "database" = Some true ->
  db_create_pool w = None ->
  schema_file w = inl data ->
  db_acquire w = None ->
  statements data = pre ++ st :: post ->
  (forall x, In x pre -> db_execute w x = None) ->
  db_execute w st = Some e ->
  start_database_pool w bot s
  = (Raise e,
     mkState (levels s)
       (trace s ++ [LogCall INFO "Creating database pool"; DbCreatePool;
                    LogCall INFO "Created database pool successfully";
                    LogCall INFO "Creating initial database tables";
                    OpenSchema schema_path; DbAcquire]
                ++ map DbExecute pre ++ [DbExecute st; DbRelease])).
Proof.
  intros Hon Hc Hf Ha Hsplit Hpre Hst.
  rewrite (start_database_pool_created w bot s Hon Hc). cbv zeta.
  rewrite (create_initial_database_fails_at w bot _ data pre st post e Hf Ha Hsplit Hpre Hst).
  simpl. rewrite <- !app_assoc. reflexivity.
Qed.

Lemma start_database_pool_bootstrap_fails_witness :
  start_database_pool
    (failing_world (inl (txt "CREATE TABLE a(x int); DROP b; CREATE TABLE c(z int);"))
       (txt "DROP b") (Exn ValueError "no such table"))
    (sample_bot true true) (initial (fun _ => NOTSET))
  = (Raise (Exn ValueError "no such table"),
     mkState (fun _ => NOTSET)
       ([] ++ [LogCall INFO "Creating database pool"; DbCreatePool;
               LogCall INFO "Created database pool successfully";
               LogCall INFO "Creating initial database tables";
               OpenSchema schema_path; DbAcquire]
           ++ map DbExecute [txt "CREATE TABLE a(x int)"] ++ [DbExecute (txt "DROP b"); DbRelease])).
Proof.
  apply (start_database_pool_bootstrap_fails
           (failing_world (inl (txt "CREATE TABLE a(x int); DROP b; CREATE TABLE c(z int);"))
              (txt "DROP b") (Exn ValueError "no such table"))
           (sample_bot true true) (initial (fun _ => NOTSET))
           (txt "CREATE TABLE a(x int); DROP b; CREATE TABLE c(z int);")
           [txt "CREATE TABLE a(x int)"] (txt "DROP b") [txt "CREATE TABLE c(z int)"]);
    try reflexivity.
  intros x [<- | []]. reflexivity.
Defined.

(** X19. The answer of the bootstrap is not looked at: once the pool is
    created, [start_database_pool] returns normally whether
    [create_initial_database] returned [True] or [False], so a missing schema
    file does not stop the start; [start_redis_pool] returns after the pool
    creation and its two log calls. *)
Theorem starters_succeed (w : World) (bot : Bot) (s : state) :
  (enabled_flag bot "database" = Some true -> db_create_pool w = None ->
   forall b s',
     create_initial_database w bot
       (mkState (levels s)
          (trace s ++ [LogCall INFO "Creating database pool"; DbCreatePool;
                       LogCall INFO "Created database pool successfully";
                       LogCall INFO "Creating initial database tables"]))
     = (Ok b, s') ->
     start_database_pool w bot s = (Ok tt, s'))
  /\
  (enabled_flag bot "redis" = Some true -> redis_create_pool w = None ->
   start_redis_pool w bot s
   = (Ok tt, mkState (levels s)
               (trace s ++ [LogCall INFO "Creating redis pool"; RedisCreatePool;
                            LogCall INFO "Created redis pool successfully"]))).
Proof.
  split.
  - intros Hon Hc b s' Hb. rewrite (start_database_pool_created w bot s Hon Hc).
    cbv zeta. rewrite Hb. reflexivity.
  - intros Hon Hc. destruct (enabled_section _ _ _ Hon) as [section Hs].
    unfold start_redis_pool, bind, try_except, getitem, call, logger_info, emit, bind.
    rewrite (enabled_run _ _ _ _ Hon), Hs, Hc. simpl.
    rewrite <- !app_assoc. reflexivity.
Qed.

Lemma starters_succeed_witness :
  let w := quiet_world (inr (Exn OSError "No such file or directory")) in
  start_database_pool w (sample_bot true true) (initial (fun _ => NOTSET))
  = (Ok tt,
     mkState (fun _ => NOTSET)
       [LogCall INFO "Creating database pool"; DbCreatePool;
        LogCall INFO "Created database pool successfully";
        LogCall INFO "Creating initial database tables"; OpenSchema schema_path])
  /\
  start_redis_pool w (sample_bot true true) (initial (fun _ => NOTSET))
  = (Ok tt,
     mkState (fun _ => NOTSET)
       ([] ++ [LogCall INFO "Creating redis pool"; RedisCreatePool;
               LogCall INFO "Created redis pool successfully"])).
Proof.
  intros w.
  destruct (starters_succeed w (sample_bot true true) (initial (fun _ => NOTSET)))
    as [Hdb Hredis].
  split.
  - apply (Hdb eq_refl eq_refl false). reflexivity.
  - apply Hredis; reflexivity.
Defined.

(** ** Runs that do not reach the end *)

Lemma startup_no_second_half (w : World) (bot : Bot) :
  emits_only (fun e => negb (is_second_half_op e)) (startup w bot).
Proof.
  set (P := fun e => negb (is_second_half_op e)).
  assert (HP : forall e, P e = true -> P e = true) by auto.
  unfold startup, logger_info.
  apply emits_only_bind; [footprint HP | intros _].
  apply emits_only_bind; [|intros _].
  { apply start_database_pool_footprint. intros e He. destruct e; try discriminate; reflexivity. }
  apply emits_only_bind; [|intros _].
  { apply start_redis_pool_footprint. intros e He. destruct e; try discriminate; reflexivity. }
  footprint HP.
Qed.

(** X21. No clean-up follows a failed start-up: when anything before the
    client's run raises (a pool creation, the schema bootstrap, the loading of
    the extensions), [run_bot] raises the same exception having done nothing
    else: the client is not started, a pool already created is not closed,
    and the loop is not closed. *)
Theorem run_bot_startup_fails (w : World) (bot : Bot) (lv : Logger -> Z) (e : exn) :
  outcome (startup w bot) lv = Raise e ->
  outcome (run_bot w bot) lv = Raise e
  /\ events (run_bot w bot) lv = events (startup w bot) lv
  /\ forallb (fun x => negb (is_second_half_op x)) (events (run_bot w bot) lv) = true.
Proof.
  unfold outcome, events. intros H. rewrite run_bot_split. unfold bind.
  destruct (startup_no_second_half w bot (initial lv)) as (t & E & F).
  destruct (startup w bot (initial lv)) as [[[]|x] s1]; simpl in *; [discriminate|].
  injection H as ->. rewrite E. auto.
Qed.

Lemma run_bot_startup_fails_witness :
  outcome (run_bot redis_refusing_world (sample_bot true true)) (fun _ => NOTSET)
  = Raise (Exn ConnectionRefusedError msg_redis_refused)
  /\ events (run_bot redis_refusing_world (sample_bot true true)) (fun _ => NOTSET)
     = events (startup redis_refusing_world (sample_bot true true)) (fun _ => NOTSET)
  /\ forallb (fun x => negb (is_second_half_op x))
       (events (run_bot redis_refusing_world (sample_bot true true)) (fun _ => NOTSET))
     = true.
Proof.
  apply (run_bot_startup_fails redis_refusing_world (sample_bot true true)
           (fun _ => NOTSET)).
  reflexivity.
Defined.

Example run_bot_redis_refused_run :
  events (run_bot redis_refusing_world (sample_bot true true)) (fun _ => NOTSET)
  = [LogCall INFO "Creating database pool"; DbCreatePool;
     LogCall INFO "Created database pool successfully";
     LogCall INFO "Creating initial database tables";
     OpenSchema schema_path; DbAcquire;
     DbExecute (txt "CREATE TABLE a(x int)"); DbExecute (txt "CREATE TABLE b(y int)"); DbRelease;
     LogCall INFO "Creating redis pool"; RedisCreatePool].
Proof. reflexivity. Qed.

(** X22. Only a [KeyboardInterrupt] leads to the clean-up: when the
    client's run raises anything else, [run_bot] raises without logging the
    client out, without closing either pool and without closing the loop. *)
Theorem run_bot_client_crash (w : World) (bot : Bot) (lv : Logger -> Z) (e : exn) :
  bot_start w = Some e ->
  isinstance e KeyboardInterrupt = false ->
  (exists e', outcome (run_bot w bot) lv = Raise e')
  /\ forallb (fun x => negb (is_cleanup_op x)) (events (run_bot w bot) lv) = true
  /\ (In BotStart (events (run_bot w bot) lv) -> outcome (run_bot w bot) lv = Raise e).
Proof.
  unfold outcome, events. intros Hs Hi. rewrite run_bot_split. unfold bind.
  destruct (startup_no_second_half w bot (initial lv)) as (t & E & F).
  assert (Ft : forallb (fun x => negb (is_cleanup_op x)) t = true).
  { rewrite forallb_forall in *. intros x Hx. specialize (F x Hx).
    destruct x; try discriminate; reflexivity. }
  destruct (startup w bot (initial lv)) as [[[]|x] s1]; simpl in E.
  - unfold run_and_close, bind, try_except, call, logger_info, emit, bind.
    simpl. rewrite Hs. simpl. rewrite Hi. simpl. rewrite E.
    split; [eauto|]. split; [|auto].
    rewrite !forallb_app, Ft. reflexivity.
  - simpl. rewrite E. split; [eauto|]. split; [exact Ft|].
    intros Hin. exfalso. rewrite forallb_forall in F. specialize (F _ Hin). discriminate.
Qed.

Lemma run_bot_client_crash_witness :
  let w := crashing_world (Exn OSError "connection reset") in
  (exists e', outcome (run_bot w (sample_bot true true)) (fun _ => NOTSET) = Raise e')
  /\ forallb (fun x => negb (is_cleanup_op x))
       (events (run_bot w (sample_bot true true)) (fun _ => NOTSET)) = true
  /\ (In BotStart (events (run_bot w (sample_bot true true)) (fun _ => NOTSET)) ->
      outcome (run_bot w (sample_bot true true)) (fun _ => NOTSET)
      = Raise (Exn OSError "connection reset")).
Proof.
  intros w.
  apply (run_bot_client_crash w (sample_bot true true) (fun _ => NOTSET)
           (Exn OSError "connection reset")); reflexivity.
Defined.

(** ** The closing of the loop *)


Lemma run_and_close_loop (w : World) (bot : Bot) (s : state) :
  exists tail,
    trace (snd (run_and_close w bot s)) = trace s ++ tail
    /\ ((fst (run_and_close w bot s) = Ok tt /\ last tail BotStart = LoopClose)
        \/ ((exists e, fst (run_and_close w bot s) = Raise e) /\ ~ In LoopClose tail)).
Proof.
  destruct (enabled_pure bot "database") as [xd Hd].
  destruct (enabled_pure bot "redis") as [xr Hr].
  unfold run_and_close, bind, try_except, call, logger_info, emit, bind. simpl.
  destruct (bot_start w) as [e|]; simpl;
    [destruct (isinstance e KeyboardInterrupt); simpl;
     [destruct (bot_logout w); simpl|]|];
    rewrite ?Hd; destruct xd as [[|]|ed]; simpl;
    try (destruct (db_pool_close w); simpl);
    rewrite ?Hr; destruct xr as [[|]|er]; simpl;
    try (destruct (redis_pool_close w); simpl);
    rewrite <- ?app_assoc; simpl; eexists; (split; [reflexivity|]);
    first [ left; split; reflexivity
          | right; split; [eexists; reflexivity | simpl; intuition discriminate] ].
Qed.

Lemma last_app_nonempty {A} (l1 l2 : list A) (d : A) :
  l2 <> [] -> last (l1 ++ l2) d = last l2 d.
Proof.
  intros H. induction l1 as [|x l1 IH]; simpl; [reflexivity|].
  destruct (l1 ++ l2) eqn:E; [|exact IH].
  apply app_eq_nil in E. destruct E as [_ ->]. contradiction.
Qed.

Lemma last_In_nonempty {A} (l : list A) (d : A) : l <> [] -> In (last l d) l.
Proof.
  induction l as [|x l IH]; [contradiction|]. intros _.
  destruct l as [|y l]; [left; reflexivity|].
  right. apply IH. discriminate.
Qed.

(** X20. [run_bot] closes the event loop exactly when it returns normally,
    and then as its last operation: every run that raises, at whatever step,
    leaves the loop open. *)
Theorem run_bot_closes_loop_iff_returns (w : World) (bot : Bot) (lv : Logger -> Z) :
  (outcome (run_bot w bot) lv = Ok tt <-> In LoopClose (events (run_bot w bot) lv))
  /\ (outcome (run_bot w bot) lv = Ok tt ->
      last (events (run_bot w bot) lv) BotStart = LoopClose).
Proof.
  unfold outcome, events. rewrite run_bot_split. unfold bind.
  destruct (startup_no_second_half w bot (initial lv)) as (t & E & F).
  assert (Ft : ~ In LoopClose t).
  { intros Hin. rewrite forallb_forall in F. specialize (F _ Hin). discriminate. }
  destruct (startup w bot (initial lv)) as [[[]|x] s1]; simpl in E.
  - destruct (run_and_close_loop w bot s1) as (tail & Et & H).
    rewrite Et, E. simpl.
    destruct H as [[Hok Hlast] | [[e He] Hno]].
    + rewrite Hok. split.
      * split; [|reflexivity]. intros _. apply in_or_app. right.
        rewrite <- Hlast. apply last_In_nonempty. intros ->. discriminate Hlast.
      * intros _. rewrite last_app_nonempty; [exact Hlast|].
        intros ->. discriminate Hlast.
    + rewrite He. split; [split|]; try discriminate.
      intros Hin. apply in_app_or in Hin. tauto.
  - simpl. rewrite E. simpl. split; [split|]; try discriminate. tauto.
Qed.

(** ** No operation twice *)

Lemma count_occ_other_than (x : event) (t : list event) :
  forallb (other_than x) t = true -> count_occ event_eq_dec t x = 0%nat.
Proof.
  induction t as [|e t IH]; simpl; [reflexivity|].
  intros H. apply andb_true_iff in H. destruct H as [He Ht].
  unfold other_than in He. destruct (event_eq_dec e x); [discriminate | auto].
Qed.

Section Once.

Variable x : event.

Lemma at_most_once_footprint {A} (m : M A) :
  emits_only (other_than x) m -> at_most_once x m.
Proof.
  intros Hm s. destruct (Hm s) as (t & E & F). exists t. split; [exact E|].
  rewrite (count_occ_other_than x t F). lia.
Qed.

Lemma at_most_once_call (e : event) (answer : option exn) :
  at_most_once x (call e answer).
Proof.
  intros s. exists [e]. split.
  - unfold call, bind, emit. simpl. destruct answer; reflexivity.
  - simpl. destruct (event_eq_dec e x); lia.
Qed.

Lemma at_most_once_bind_left {A B} (m : M A) (f : A -> M B) :
  at_most_once x m -> (forall a, emits_only (other_than x) (f a)) ->
  at_most_once x (bind m f).
Proof.
  intros Hm Hf s. unfold bind. destruct (Hm s) as (t1 & E1 & C1).
  destruct (m s) as [[a|e] s1]; simpl in *.
  - destruct (Hf a s1) as (t2 & E2 & F2). exists (t1 ++ t2).
    rewrite E2, E1, app_assoc. split; [reflexivity|].
    rewrite count_occ_app, (count_occ_other_than x t2 F2). lia.
  - exists t1. auto.
Qed.

Lemma at_most_once_bind_right {A B} (m : M A) (f : A -> M B) :
  emits_only (other_than x) m -> (forall a, at_most_once x (f a)) ->
  at_most_once x (bind m f).
Proof.
  intros Hm Hf s. unfold bind. destruct (Hm s) as (t1 & E1 & F1).
  pose proof (count_occ_other_than x t1 F1) as C1.
  destruct (m s) as [[a|e] s1]; simpl in *.
  - destruct (Hf a s1) as (t2 & E2 & C2). exists (t1 ++ t2).
    rewrite E2, E1, app_assoc. split; [reflexivity|].
    rewrite count_occ_app. lia.
  - exists t1. split; [exact E1 | lia].
Qed.

Lemma at_most_once_try_body {A} (body : M A) (handlers : list (exc_class * (exn -> M A))) :
  at_most_once x body ->
  (forall h e, In h handlers -> emits_only (other_than x) (snd h e)) ->
  at_most_once x (try_except body handlers).
Proof.
  intros Hb Hh s. unfold try_except. destruct (Hb s) as (t1 & E1 & C1).
  destruct (body s) as [[a|e] s1]; simpl in *.
  - exists t1. auto.
  - destruct (find _ handlers) as [h|] eqn:Ef.
    + apply find_some in Ef. destruct Ef as [Hin _].
      destruct (Hh h e Hin s1) as (t2 & E2 & F2). exists (t1 ++ t2).
      rewrite E2, E1, app_assoc. split; [reflexivity|].
      rewrite count_occ_app, (count_occ_other_than x t2 F2). lia.
    + exists t1. auto.
Qed.

Lemma at_most_once_try_handler {A} (body : M A) (handlers : list (exc_class * (exn -> M A))) :
  emits_only (other_than x) body ->
  (forall h e, In h handlers -> at_most_once x (snd h e)) ->
  at_most_once x (try_except body handlers).
Proof.
  intros Hb Hh s. unfold try_except. destruct (Hb s) as (t1 & E1 & F1).
  pose proof (count_occ_other_than x t1 F1) as C1.
  destruct (body s) as [[a|e] s1]; simpl in *.
  - exists t1. split; [exact E1 | lia].
  - destruct (find _ handlers) as [h|] eqn:Ef.
    + apply find_some in Ef. destruct Ef as [Hin _].
      destruct (Hh h e Hin s1) as (t2 & E2 & C2). exists (t1 ++ t2).
      rewrite E2, E1, app_assoc. split; [reflexivity|].
      rewrite count_occ_app. lia.
    + exists t1. split; [exact E1 | lia].
Qed.

End Once.

(** A computation free of the operation. *)
Ltac absent :=
  let HP := fresh "HP" in
  match goal with
  | |- emits_only ?P _ => assert (HP : forall e, P e = true -> P e = true) by auto
  end;
  unfold logger_info;
  footprint HP;
  try (first [ apply start_database_pool_footprint
             | apply start_redis_pool_footprint
             | apply create_initial_database_footprint ];
       let e := fresh "e" in
       intros e; destruct e; intros; try discriminate; reflexivity).

Ltac single :=
  first
    [ solve [apply at_most_once_footprint; absent]
    | match goal with
      | |- at_most_once _ (call _ _) => apply at_most_once_call
      | |- at_most_once _ (bind _ _) =>
          first [ apply at_most_once_bind_right; [solve [absent] | intros ?; single]
                | apply at_most_once_bind_left; [single | intros ?; solve [absent]] ]
      | |- at_most_once _ (try_except _ _) =>
          first [ apply at_most_once_try_body;
                  [ single
                  | let Hin := fresh "Hin" in
                    intros ? ? Hin; simpl in Hin;
                    repeat (destruct Hin as [<-|Hin]; [simpl; solve [absent]|]);
                    contradiction ]
                | apply at_most_once_try_handler;
                  [ solve [absent]
                  | let Hin := fresh "Hin" in
                    intros ? ? Hin; simpl in Hin;
                    repeat (destruct Hin as [<-|Hin]; [simpl; single|]);
                    contradiction ] ]
      | |- at_most_once _ (if ?b then _ else _) => destruct b; single
      | |- at_most_once _ (start_database_pool _ _) =>
          unfold start_database_pool, logger_info; single
      | |- at_most_once _ (start_redis_pool _ _) =>
          unfold start_redis_pool, logger_info; single
      end ].

Lemma run_bot_at_most_once (w : World) (bot : Bot) (x : event) :
  In x [DbCreatePool; RedisCreatePool; LoadAllExtensions; BotStart; BotLogout;
        DbPoolClose; RedisPoolClose; LoopClose] ->
  at_most_once x (run_bot w bot).
Proof.
  intros Hx. simpl in Hx.
  repeat (destruct Hx as [<- | Hx]; [unfold run_bot, logger_info; single|]).
  contradiction.
Qed.

(** X23. In one run of [run_bot] each pool is created at most once and
    closed at most once, the extensions are loaded at most once, the client
    is started and logged out at most once, and the loop is closed at most
    once. *)
Theorem run_bot_operations_once (w : World) (bot : Bot) (lv : Logger -> Z) (x : event) :
  In x [DbCreatePool; RedisCreatePool; LoadAllExtensions; BotStart; BotLogout;
        DbPoolClose; RedisPoolClose; LoopClose] ->
  (count_occ event_eq_dec (events (run_bot w bot) lv) x <= 1)%nat.
Proof.
  intros Hx. unfold events.
  destruct (run_bot_at_most_once w bot x Hx (initial lv)) as (t & E & C).
  rewrite E. exact C.
Qed.

Lemma run_bot_operations_once_witness :
  (count_occ event_eq_dec
     (events (run_bot (interrupted_world (inl sample_schema)) (sample_bot true true))
        (fun _ => NOTSET)) DbPoolClose <= 1)%nat.
Proof.
  apply (run_bot_operations_once (interrupted_world (inl sample_schema))
           (sample_bot true true) (fun _ => NOTSET) DbPoolClose).
  simpl. tauto.
Defined.

(** ** The defaults of the command line *)

(** X24. The parser defines every attribute the runner reads. On a command
    line without options they hold no shard range and the level [INFO], so
    that validation gives the single shard 0 with a count of 1, and
    [set_default_log_levels] puts the four loggers at [INFO] whatever they
    were; [config_file] is an attribute exactly when the parser was built
    with it. *)
Theorem default_arguments_run
    (include_config_file : bool) (config_file : string) (bot : Bot) (s : state) :
  let d := parse_without_options
             (get_default_program_arguments include_config_file) config_file in
  let args := mkNamespace None None None (Some "INFO") None None None None in
  namespace_of d = Some args
  /\ dict_get d "config_file"
     = (if include_config_file then Some (PyStr config_file) else None)
  /\ validate_sharding_information args s
     = (Ok (mkNamespace (Some 0) (Some 0) (Some 1) (Some "INFO") None None None None, [0]), s)
  /\ exists s',
       set_default_log_levels bot args s
       = (Ok (mkBot (config bot) logger (database_logger bot) (redis_logger bot)), s')
       /\ forall l, In l [logger; database_logger bot; redis_logger bot; getLogger "discord"] ->
            levels s' l = INFO.
Proof.
  intros d args. split; [|split; [|split]].
  - destruct include_config_file; reflexivity.
  - destruct include_config_file; reflexivity.
  - reflexivity.
  - subst args. unfold set_default_log_levels, bind, emit. simpl.
    repeat (rewrite (fun r s => set_log_level_named r "INFO" INFO s eq_refl);
            unfold store_level; cbv beta iota).
    simpl. eexists. split; [reflexivity|].
    unfold resolve, getLogger, logger. simpl.
    intros l [<- | [<- | [<- | [<- | []]]]]; rewrite ?String.eqb_refl;
      repeat match goal with
      | |- context [String.eqb ?a ?b] => destruct (String.eqb a b)
      end; reflexivity.
Qed.

Lemma validate_sharding_information_never_exits_witness :
  exists msg,
    fst (validate_sharding_information
           (mkNamespace None (Some 3) (Some 2) (Some "INFO") None None None None)
           (initial (fun _ => NOTSET)))
    = Raise (Exn TypeError msg).
Proof.
  destruct (validate_sharding_information_never_exits
              (mkNamespace None (Some 3) (Some 2) (Some "INFO") None None None None)
              (initial (fun _ => NOTSET))) as (_ & _ & _ & H).
  apply H. reflexivity.
Defined.

Lemma run_bot_closes_loop_iff_returns_witness :
  In LoopClose
    (events (run_bot (quiet_world (inl sample_schema)) (sample_bot true true))
       (fun _ => NOTSET))
  /\ last (events (run_bot (quiet_world (inl sample_schema)) (sample_bot true true))
             (fun _ => NOTSET)) BotStart = LoopClose.
Proof.
  destruct (run_bot_closes_loop_iff_returns (quiet_world (inl sample_schema))
              (sample_bot true true) (fun _ => NOTSET)) as [[Hin _] Hlast].
  split; [apply Hin | apply Hlast]; reflexivity.
Defined.
